(** * MEDIA_MIND: the PDF extraction and chunking pipeline

    A shallow embedding of [scripts/extract_pdf.py] ([process_pdf] and
    [main]) and the properties of its chunker, its per-page fallback
    control flow and its aggregator.

    The external collaborators (PyMuPDF, pdfplumber, pytesseract, camelot,
    pikepdf, spaCy, uuid) are not re-implemented: every call into them is
    represented by the outcome it had, either a value or a raised
    exception, recorded in an environment the functions read. *)

From Stdlib Require Import List String Ascii ZArith Arith Bool Lia ZifyNat Permutation Sorted
  DecimalString.
Import ListNotations.
Local Open Scope string_scope.
Local Open Scope list_scope.

(** ** Python values and builtins used by the script *)

Module Py.

(** An exception is identified with its [str(e)]. *)
Definition exn := string.

(** Outcome of a call that may raise. *)
Inductive result (A : Type) : Type :=
| Ok (a : A)
| Raise (e : exn).
Arguments Ok {A} a.
Arguments Raise {A} e.

Definition bind {A B} (r : result A) (k : A -> result B) : result B :=
  match r with
  | Ok a => k a
  | Raise e => Raise e
  end.

(** JSON-serialisable values; a dict keeps its insertion order. *)
#[warnings="-register-all"]
Inductive json : Type :=
| JStr (s : string)
| JInt (n : Z)
| JList (l : list json)
| JDict (d : list (string * json)).

Definition dict := list (string * json).

(** [d[k]] as an option. *)
Fixpoint dict_get (k : string) (d : dict) : option json :=
  match d with
  | [] => None
  | (k', v) :: rest => if String.eqb k k' then Some v else dict_get k rest
  end.

(** [d[k] = v]: an existing key keeps its position, a new one goes last. *)
Fixpoint dict_set (k : string) (v : json) (d : dict) : dict :=
  match d with
  | [] => [(k, v)]
  | (k', v') :: rest =>
      if String.eqb k k' then (k', v) :: rest else (k', v') :: dict_set k v rest
  end.

(** [{**d, k1: v1, ..., kn: vn}]. *)
Definition dict_update (d : dict) (items : list (string * json)) : dict :=
  fold_left (fun acc kv => dict_set (fst kv) (snd kv) acc) items d.

(** [**x] for a value [x] obtained by subscripting. *)
Definition spread (x : option json) : dict :=
  match x with
  | Some (JDict d) => d
  | _ => []
  end.


Definition nl : string := String (ascii_of_nat 10) EmptyString.

(** [sep.join(l)]. *)
Fixpoint join (sep : string) (l : list string) : string :=
  match l with
  | [] => ""
  | [s] => s
  | s :: rest => (s ++ sep ++ join sep rest)%string
  end.

(** [l[i : j]] for [0 <= i <= j]. *)
Definition slice {A} (l : list A) (i j : nat) : list A :=
  firstn (j - i) (skipn i l).

(** [range(i, stop, step)], unrolled at most [fuel] times. *)
Fixpoint range_from (fuel i stop step : nat) : list nat :=
  match fuel with
  | 0 => []
  | S fuel' =>
      if (i <? stop)%nat then i :: range_from fuel' (i + step) stop step else []
  end.

(** [range(0, stop, step)] for [step >= 1]: [stop] unrollings suffice. *)
Definition range_step (stop step : nat) : list nat :=
  range_from stop 0 stop step.

(** Truth value of a string or bytes object. *)
Definition truthy (s : string) : bool :=
  match s with
  | EmptyString => false
  | _ => true
  end.

(** [x or ""] for an optional string. *)
Definition or_empty (x : option string) : string :=
  match x with
  | Some s => if truthy s then s else ""
  | None => ""
  end.

End Py.
Import Py.

Notation "x <- c ;; k" := (bind c (fun x => k))
  (at level 61, c at next level, right associativity).

(** ** The environment: optional capabilities and external collaborators *)

(** The module-level flags set by the guarded imports (lines 24-53). *)
Class Capabilities : Type := {
  HAS_REPAIR : bool;
  HAS_PLUMBER : bool;
  HAS_OCR : bool;
  HAS_TABLES : bool
}.

(** The spaCy sentencizer ([nlp(text).sents], each span's [.text]) and
    [str.strip]. Both return for every text: the script calls them outside
    any [try]. *)
Class Segmenter : Type := {
  nlp_sents : string -> list string;
  strip : string -> string
}.

(** One embedded image of a PyMuPDF page, with the outcome of each call the
    OCR overlay makes on it (lines 108-118). *)
Record fitz_image : Type := {
  xref : Z;
  image_bytes : result string;       (* page.get_image / doc.extract_image *)
  Image_open : result unit;          (* Image.open(io.BytesIO(raw)) *)
  image_to_string : result string;   (* pytesseract.image_to_string(im) *)
  im_save : result unit              (* mkdir + im.save *)
}.

(** A PyMuPDF page. *)
Record fitz_page : Type := {
  get_text : result string;
  get_images : result (list fitz_image)
}.

(** An opened PyMuPDF document. *)
Record fitz_doc : Type := {
  page_count : nat;
  load_page : nat -> result fitz_page
}.

(** One image of a pdfplumber page (lines 145-152). *)
Record plumber_image : Type := {
  crop_to_image : result unit;       (* pg.crop(...).to_image(...).original, Image.open *)
  plumb_save : result unit;          (* mkdir + im.save *)
  plumb_to_string : result string    (* pytesseract.image_to_string(im) *)
}.

(** A pdfplumber page. *)
Record plumber_page : Type := {
  extract_text : result (option string);
  extract_tables : result (list (list (list (option string))));
  images : result (list plumber_image)
}.

(** A PDF on disk, with the outcome of every call made on it. The calls
    that are repeated per page take the 0-based page number. *)
Record pdf : Type := {
  path_str : string;                                   (* str(pdf_path) *)
  path_name : string;                                  (* pdf_path.name *)
  pikepdf_repair : result unit;                        (* open + save *)
  fitz_open_fixed : result fitz_doc;                   (* fitz.open(str(fixed)) *)
  fitz_open : result fitz_doc;                         (* fitz.open(str(pdf_path)) *)
  camelot_read_pdf : nat -> result (list (result string));  (* each t.df.to_csv *)
  pdfplumber_open : nat -> result (list plumber_page)  (* pl.pages *)
}.

(** A source of [str(uuid.uuid4())] values: the n-th call returns [g n]. *)
Definition uuid_gen := nat -> string.

(** ** Output records *)

Definition chunk := dict.

(** [(pdf_path.name, page_no+1, error)]. *)
Definition skipped_page : Type := (string * Z * string)%type.

(** [(pdf.name, str(e))]. *)
Definition skipped_pdf : Type := (string * string)%type.

Definition WINDOW : nat := 5.
Definition OVERLAP : nat := 2.
Definition STEP : nat := WINDOW - OVERLAP.

(** Accessors used to state properties of chunks. *)
Definition chunk_loc (c : chunk) : dict := spread (dict_get "loc" c).
Definition chunk_page (c : chunk) : option json := dict_get "page" (chunk_loc c).
Definition chunk_elem_type (c : chunk) : option json := dict_get "elem_type" c.
Definition chunk_text (c : chunk) : option json := dict_get "text" c.

Definition is_text (c : chunk) : bool :=
  match chunk_elem_type c with
  | Some (JStr s) => String.eqb s "text"
  | _ => false
  end.

Definition is_table (c : chunk) : bool :=
  match chunk_elem_type c with
  | Some (JStr s) => String.eqb s "table"
  | _ => false
  end.

Definition on_page (p : Z) (c : chunk) : bool :=
  match chunk_page c with
  | Some (JInt q) => Z.eqb q p
  | _ => false
  end.

Definition in_doc (path : string) (c : chunk) : bool :=
  match dict_get "doc_path" c with
  | Some (JStr s) => String.eqb s path
  | _ => false
  end.

Definition skipped_on_page (p : Z) (r : skipped_page) : bool :=
  Z.eqb (snd (fst r)) p.


(** ** process_pdf *)

Section Extractor.

Context {caps : Capabilities} {seg : Segmenter}.

(** Lines 108-118: the OCR overlay over the page's images. Nothing in this
    loop is guarded, so the first call that raises ends it. *)
Fixpoint ocr_overlay (imgs : list fitz_image) (text : string) : result string :=
  match imgs with
  | [] => Ok text
  | img :: rest =>
      raw <- image_bytes img ;;
      if truthy raw then
        _ <- Image_open img ;;
        s <- image_to_string img ;;
        _ <- im_save img ;;
        ocr_overlay rest (text ++ nl ++ s)%string
      else ocr_overlay rest text
  end.

(** Lines 126-127 inside the [try] of lines 122-129: tables are appended
    until a serialisation raises; the error is then dropped. *)
Fixpoint append_csv (tbls : list (result string)) (tables : list string) : list string :=
  match tbls with
  | [] => tables
  | Ok csv :: rest => append_csv rest (tables ++ [csv])
  | Raise _ :: _ => tables
  end.

(** Lines 121-129. *)
Definition camelot_tables (d : pdf) (page_no : nat) (tables : list string) : list string :=
  if HAS_TABLES then
    match camelot_read_pdf d page_no with
    | Ok tbls => append_csv tbls tables
    | Raise _ => tables
    end
  else tables.

(** Lines 102-129: the body of the outer [try]. *)
Definition primary_attempt (d : pdf) (doc : fitz_doc) (page_no : nat)
  : result (string * list string) :=
  page <- load_page doc page_no ;;
  text <- get_text page ;;
  text <- (if HAS_OCR then
             imgs <- get_images page ;;
             ocr_overlay imgs text
           else Ok text) ;;
  Ok (text, camelot_tables d page_no []).

(** Lines 141-142: one pdfplumber table as comma-joined rows. *)
Definition plumber_table (table : list (list (option string))) : string :=
  join nl (map (fun r => join "," (map or_empty r)) table).

(** Lines 145-152. *)
Fixpoint plumber_ocr (imgs : list plumber_image) (text : string) : result string :=
  match imgs with
  | [] => Ok text
  | img :: rest =>
      _ <- crop_to_image img ;;
      _ <- plumb_save img ;;
      s <- plumb_to_string img ;;
      plumber_ocr rest (text ++ nl ++ s)%string
  end.

(** Lines 135-152: the body of the inner [try]. [tables] is still empty
    when it starts: the primary attempt appends to it only in its last
    statements (lines 126-127), after which nothing can raise. *)
Definition fallback_attempt (d : pdf) (page_no : nat)
  : result (string * list string) :=
  pages <- pdfplumber_open d page_no ;;
  pg <- match nth_error pages page_no with
        | Some pg => Ok pg
        | None => Raise "list index out of range"
        end ;;
  t <- extract_text pg ;;
  let text := or_empty t in
  tables <- (if HAS_TABLES then
               tbls <- extract_tables pg ;;
               Ok (map plumber_table tbls)
             else Ok []) ;;
  text <- (if HAS_OCR then
             imgs <- images pg ;;
             plumber_ocr imgs text
           else Ok text) ;;
  Ok (text, tables).

(** What the page loop knows once lines 101-158 are through: the text and
    the tables, or the record appended before [continue]. *)
Inductive page_outcome : Type :=
| Extracted (text : string) (tables : list string)
| SkippedPage (r : skipped_page).

(** Lines 101-158: the nested [try]/[except]. *)
Definition extract_page (d : pdf) (doc : fitz_doc) (page_no : nat) : page_outcome :=
  match primary_attempt d doc page_no with
  | Ok (text, tables) => Extracted text tables
  | Raise e =>
      if HAS_PLUMBER then
        match fallback_attempt d page_no with
        | Ok (text, tables) => Extracted text tables
        | Raise e2 =>
            SkippedPage (path_name d, Z.of_nat page_no + 1, (e ++ " / " ++ e2)%string)%Z
        end
      else SkippedPage (path_name d, Z.of_nat page_no + 1, e)%Z
  end.

(** The same control flow, one block at a time: [PrimaryAttempt] is the
    outer [try] body about to run, [FallbackAttempt e] the inner [try] body
    about to run in the handler of [e]; [Done] and [Skipped] are final. *)
Inductive page_state : Type :=
| PrimaryAttempt
| FallbackAttempt (e : exn)
| Done (text : string) (tables : list string)
| Skipped (r : skipped_page).

Definition page_step (d : pdf) (doc : fitz_doc) (page_no : nat)
           (st : page_state) : page_state :=
  match st with
  | PrimaryAttempt =>
      match primary_attempt d doc page_no with
      | Ok (text, tables) => Done text tables
      | Raise e =>
          if HAS_PLUMBER then FallbackAttempt e
          else Skipped (path_name d, Z.of_nat page_no + 1, e)%Z
      end
  | FallbackAttempt e =>
      match fallback_attempt d page_no with
      | Ok (text, tables) => Done text tables
      | Raise e2 => Skipped (path_name d, Z.of_nat page_no + 1, (e ++ " / " ++ e2)%string)%Z
      end
  | Done _ _ | Skipped _ => st
  end.

Definition is_final (st : page_state) : bool :=
  match st with
  | Done _ _ | Skipped _ => true
  | _ => false
  end.

Definition is_fallback (st : page_state) : bool :=
  match st with
  | FallbackAttempt _ => true
  | _ => false
  end.

(** The states visited from [st] on, stepping until a final state, at most
    [fuel] times. *)
Fixpoint page_run (d : pdf) (doc : fitz_doc) (page_no : nat)
         (fuel : nat) (st : page_state) : list page_state :=
  match fuel with
  | 0 => [st]
  | S fuel' =>
      if is_final st then [st]
      else st :: page_run d doc page_no fuel' (page_step d doc page_no st)
  end.

(** Two steps always reach a final state. *)
Definition page_trace (d : pdf) (doc : fitz_doc) (page_no : nat) : list page_state :=
  page_run d doc page_no 2 PrimaryAttempt.

Definition state_of_outcome (o : page_outcome) : page_state :=
  match o with
  | Extracted text tables => Done text tables
  | SkippedPage r => Skipped r
  end.

(** Line 162. *)
Definition sentences (text : string) : list string :=
  filter truthy (map strip (nlp_sents text)).

(** Lines 163-169. *)
Definition base_chunk (d : pdf) (page_no : nat) (chunk_id : string)
           (tables : list string) : dict :=
  [ ("chunk_id", JStr chunk_id);
    ("source", JStr "pdf");
    ("doc_path", JStr (path_str d));
    ("loc", JDict [("page", JInt (Z.of_nat page_no + 1))]);
    ("tables", JList (map JStr tables)) ].

(** Lines 174-183: the chunk appended for the window [win] that starts at
    sentence [i]. *)
Definition window_chunk (base : dict) (i : nat) (win : list string) : chunk :=
  dict_update base
    [ ("elem_type", JStr "text");
      ("loc", JDict (dict_update (spread (dict_get "loc" base))
                       [ ("start_sent", JInt (Z.of_nat i + 1));
                         ("end_sent", JInt (Z.of_nat i + Z.of_nat (List.length win))) ]));
      ("text", JStr (join " " win)) ].

(** Lines 172-173: the start index and the window of every iteration. *)
Definition page_windows (sents : list string) : list (nat * list string) :=
  map (fun i => (i, slice sents i (i + WINDOW)))
      (range_step (List.length sents) STEP).

(** Lines 171-185. *)
Definition text_chunks (base : dict) (text : string) : list chunk :=
  let sents := sentences text in
  match sents with
  | _ :: _ => map (fun iw => window_chunk base (fst iw) (snd iw)) (page_windows sents)
  | [] => [dict_update base [("elem_type", JStr "text"); ("text", JStr text)]]
  end.

(** Lines 189-194: the chunk of table [tbl], the [ti]-th of the page. *)
Definition table_chunk (base : dict) (ti : nat) (tbl : string) : chunk :=
  dict_update base
    [ ("elem_type", JStr "table");
      ("table_no", JInt (Z.of_nat ti));
      ("text", JStr tbl) ].

(** [enumerate(l)] from [start]. *)
Fixpoint enumerate_from {A} (start : nat) (l : list A) : list (nat * A) :=
  match l with
  | [] => []
  | x :: rest => (start, x) :: enumerate_from (S start) rest
  end.

(** Lines 188-194. *)
Definition table_chunks (base : dict) (tables : list string) : list chunk :=
  map (fun it => table_chunk base (fst it) (snd it)) (enumerate_from 0 tables).

(** Lines 160-194 for a page that was not skipped. *)
Definition page_chunks (d : pdf) (page_no : nat) (chunk_id : string)
           (text : string) (tables : list string) : list chunk :=
  let base := base_chunk d page_no chunk_id tables in
  text_chunks base text ++ table_chunks base tables.

(** The accumulators of [process_pdf] and the count of uuid4 calls. *)
Record pdf_state : Type := {
  chunks : list chunk;
  skipped_pages : list skipped_page;
  uuid_calls : nat
}.

(** Lines 98-194: one iteration of the page loop. *)
Definition process_page (d : pdf) (doc : fitz_doc) (g : uuid_gen)
           (st : pdf_state) (page_no : nat) : pdf_state :=
  match extract_page d doc page_no with
  | Extracted text tables =>
      {| chunks := chunks st ++ page_chunks d page_no (g (uuid_calls st)) text tables;
         skipped_pages := skipped_pages st;
         uuid_calls := S (uuid_calls st) |}
  | SkippedPage r =>
      {| chunks := chunks st;
         skipped_pages := skipped_pages st ++ [r];
         uuid_calls := uuid_calls st |}
  end.

(** What one page adds to [chunks] when its uuid4 call returns [chunk_id],
    and what it adds to [skipped_pages]. *)
Definition page_contrib (d : pdf) (doc : fitz_doc) (page_no : nat)
           (chunk_id : string) : list chunk :=
  match extract_page d doc page_no with
  | Extracted text tables => page_chunks d page_no chunk_id text tables
  | SkippedPage _ => []
  end.

Definition page_skips (d : pdf) (doc : fitz_doc) (page_no : nat) : list skipped_page :=
  match extract_page d doc page_no with
  | Extracted _ _ => []
  | SkippedPage r => [r]
  end.

(** Lines 82-94: repair, then open. *)
Definition open_pdf (d : pdf) : result fitz_doc :=
  let doc :=
    if HAS_REPAIR then
      match pikepdf_repair d with
      | Ok _ =>
          match fitz_open_fixed d with
          | Ok doc => Some doc
          | Raise _ => None
          end
      | Raise _ => None
      end
    else None in
  match doc with
  | Some doc => Ok doc
  | None => fitz_open d
  end.

(** Lines 97-196: the page loop over an opened document. *)
Definition process_pages (d : pdf) (doc : fitz_doc) (g : uuid_gen) : pdf_state :=
  fold_left (process_page d doc g) (seq 0 (page_count doc))
    {| chunks := []; skipped_pages := []; uuid_calls := 0 |}.

(** Lines 71-196. *)
Definition process_pdf (d : pdf) (g : uuid_gen)
  : result (list chunk * list skipped_page) :=
  doc <- open_pdf d ;;
  let st := process_pages d doc g in
  Ok (chunks st, skipped_pages st).

(** ** main *)

(** The accumulators of [main] (lines 205-207). *)
Record run_state : Type := {
  all_chunks : list chunk;
  all_skipped_pages : list skipped_page;
  skipped_pdfs : list skipped_pdf
}.

(** Lines 213-219: the orchestrator consumes one completed future; [r] is
    what [fut.result()] returns or raises. *)
Definition collect (st : run_state)
           (fut : pdf * result (list chunk * list skipped_page)) : run_state :=
  match snd fut with
  | Ok (cs, sp) =>
      {| all_chunks := all_chunks st ++ cs;
         all_skipped_pages := all_skipped_pages st ++ sp;
         skipped_pdfs := skipped_pdfs st |}
  | Raise e =>
      {| all_chunks := all_chunks st;
         all_skipped_pages := all_skipped_pages st;
         skipped_pdfs := skipped_pdfs st ++ [(path_name (fst fut), e)] |}
  end.

(** Lines 205-219 over the futures in the order [as_completed] yields
    them. *)
Definition aggregate (completed : list (pdf * result (list chunk * list skipped_page)))
  : run_state :=
  fold_left collect completed
    {| all_chunks := []; all_skipped_pages := []; skipped_pdfs := [] |}.




(** Lines 199-230, given [completed], the order in which the futures
    complete, and each task's own uuid source. *)
Definition run_tasks (gens : pdf -> uuid_gen) (completed : list pdf)
  : list (pdf * result (list chunk * list skipped_page)) :=
  map (fun p => (p, process_pdf p (gens p))) completed.


End Extractor.

(** ** Reading a chunk list back *)

(** The sentence range a chunk records in its [loc]. *)
Definition sent_range (c : chunk) : option json * option json :=
  (dict_get "start_sent" (chunk_loc c), dict_get "end_sent" (chunk_loc c)).


(** The start indices [0, S, 2S, ...] below [n]. *)
Definition window_starts (n : nat) : list nat :=
  map (fun k => k * STEP) (seq 0 ((n + STEP - 1) / STEP)).

(** What one completed future adds to each accumulator of [main]. *)
Definition future_chunks (fut : pdf * result (list chunk * list skipped_page))
  : list chunk :=
  match snd fut with
  | Ok (cs, _) => cs
  | Raise _ => []
  end.

Definition future_skipped_pages (fut : pdf * result (list chunk * list skipped_page))
  : list skipped_page :=
  match snd fut with
  | Ok (_, sp) => sp
  | Raise _ => []
  end.

Definition future_failure (fut : pdf * result (list chunk * list skipped_page))
  : list skipped_pdf :=
  match snd fut with
  | Ok _ => []
  | Raise e => [(path_name (fst fut), e)]
  end.



(** ** More ways to read the output of process_pdf *)

Definition chunk_id_of (c : chunk) : option json := dict_get "chunk_id" c.

(** The page number in a chunk's [loc] ([0] when it has none). *)
Definition page_of (c : chunk) : Z :=
  match chunk_page c with
  | Some (JInt q) => q
  | _ => 0
  end.

(** The page number of a skipped-page record. *)
Definition record_page (r : skipped_page) : Z := snd (fst r).

(** Whether the window [iw] holds sentence [j] (0-based). *)
Definition covers (j : nat) (iw : nat * list string) : bool :=
  ((fst iw <=? j)%nat && (j <? fst iw + List.length (snd iw))%nat)%bool.

Section PageLoopViews.

Context {caps : Capabilities} {seg : Segmenter}.

(** Whether the page reaches the chunker (lines 160-194). *)
Definition is_extracted (d : pdf) (doc : fitz_doc) (page_no : nat) : bool :=
  match extract_page d doc page_no with
  | Extracted _ _ => true
  | SkippedPage _ => false
  end.

(** How many uuid4 calls were made before page [page_no] is reached. *)
Definition extracted_before (d : pdf) (doc : fitz_doc) (page_no : nat) : nat :=
  List.length (filter (is_extracted d doc) (seq 0 page_no)).

(** What the pages [ps] append to [chunks] when [n] uuid4 calls were made
    before them. *)
Fixpoint contribs (d : pdf) (doc : fitz_doc) (g : uuid_gen)
         (ps : list nat) (n : nat) : list chunk :=
  match ps with
  | [] => []
  | p :: rest =>
      page_contrib d doc p (g n)
      ++ contribs d doc g rest (if is_extracted d doc p then S n else n)
  end.

End PageLoopViews.

(** ** enrich_chunks.py *)

(** The full spaCy pipeline of enrich_chunks.py: the [(ent.text, ent.label_)]
    of [nlp(text).ents]. It returns for every text. *)
Class EntityRecognizer : Type := {
  ner_ents : string -> list (string * string)
}.

(** [{"text": ent.text, "label": ent.label_}] (line 28). *)
Definition ent_json (e : string * string) : json :=
  JDict [("text", JStr (fst e)); ("label", JStr (snd e))].

(** [d[k]], raising [KeyError(k)] when the key is missing. *)
Definition getitem (k : string) (d : dict) : result json :=
  match dict_get k d with
  | Some v => Ok v
  | None => Raise ("'" ++ k ++ "'")%string
  end.

(** [d.get(k, default)]. *)
Definition get_default (k : string) (default : json) (d : dict) : json :=
  match dict_get k d with
  | Some v => v
  | None => default
  end.

Section Enrich.

Context {ner : EntityRecognizer}.

(** Line 26: [c.get("text", "")[:5000]]. A text that is no [str] makes the
    slice or the pipeline raise; only that it raises is kept. *)
Definition ner_input (c : dict) : result string :=
  match get_default "text" (JStr "") c with
  | JStr s => Ok (substring 0 5000 s)
  | _ => Raise "TypeError"
  end.

(** Lines 26-28: one iteration; [c["ents"] = ...] updates the chunk. *)
Definition enrich_chunk (c : dict) : result dict :=
  text <- ner_input c ;;
  Ok (dict_set "ents" (JList (map ent_json (ner_ents text))) c).

(** Lines 25-34: the loop over the chunks read from the file; the file is
    rewritten only when the loop gets through. *)
Fixpoint enrich_chunks (cs : list dict) : result (list dict) :=
  match cs with
  | [] => Ok []
  | c :: rest =>
      c' <- enrich_chunk c ;;
      rest' <- enrich_chunks rest ;;
      Ok (c' :: rest')
  end.

End Enrich.

(** ** embed_index.py *)

(** [json.dumps] and [json.loads]; the serialised text is kept abstract. *)
Class JsonCodec : Type := {
  json_text : Type;
  dumps : json -> json_text;
  loads : json_text -> result json
}.

(** The sentence encoder as the script uses it: [model.encode(texts)]
    followed by [embs.shape[1]], the width of the embeddings. Either call can
    raise, for instance when there is no text at all. *)
Class Encoder : Type := {
  encode_dim : list string -> result nat
}.

(** What sqlite3 stores in a TEXT column for a bound Python value: a [str]
    as it is, an [int] as its decimal text; a list or a dict cannot be
    bound. *)
Definition sql_text (v : json) : result string :=
  match v with
  | JStr s => Ok s
  | JInt n => Ok (NilZero.string_of_int (Z.to_int n))
  | JList _ | JDict _ => Raise "Error binding parameter"
  end.

(** Line 55: [c["text"][:512]]. *)
Definition text_512 (c : dict) : result string :=
  v <- getitem "text" c ;;
  match v with
  | JStr s => Ok (substring 0 512 s)
  | _ => Raise "TypeError"
  end.

(** Lines 55-57: the texts that are embedded, in order. *)
Fixpoint embed_texts (cs : list dict) : result (list string) :=
  match cs with
  | [] => Ok []
  | c :: rest =>
      t <- text_512 c ;;
      ts <- embed_texts rest ;;
      Ok (t :: ts)
  end.

(** A row of the table [meta] (lines 73-83). *)
Record meta_row {codec : JsonCodec} : Type := {
  row_id : Z;
  row_chunk_id : string;
  row_source : string;
  row_doc_path : string;
  row_loc : json_text;
  row_text : string;
  row_ents : json_text
}.

Section EmbedIndex.

Context {codec : JsonCodec} {enc : Encoder}.

(** Lines 88-96: the tuple appended for chunk [c] at position [i]. *)
Definition to_insert_row (i : nat) (c : dict)
  : result (nat * json * json * json * json_text * json * json_text) :=
  chunk_id <- getitem "chunk_id" c ;;
  source <- getitem "source" c ;;
  doc_path <- getitem "doc_path" c ;;
  loc <- getitem "loc" c ;;
  text <- getitem "text" c ;;
  Ok (i, chunk_id, source, doc_path, dumps loc, text,
      dumps (get_default "ents" (JList []) c)).

(** Lines 86-96: [for i, c in enumerate(chunks)], counting from [i]. *)
Fixpoint to_insert (i : nat) (cs : list dict)
  : result (list (nat * json * json * json * json_text * json * json_text)) :=
  match cs with
  | [] => Ok []
  | c :: rest =>
      row <- to_insert_row i c ;;
      rows <- to_insert (S i) rest ;;
      Ok (row :: rows)
  end.

(** Line 98: one INSERT of [executemany]. *)
Definition insert_row (t : nat * json * json * json * json_text * json * json_text)
  : result meta_row :=
  let '(i, chunk_id, source, doc_path, loc, text, ents) := t in
  chunk_id <- sql_text chunk_id ;;
  source <- sql_text source ;;
  doc_path <- sql_text doc_path ;;
  text <- sql_text text ;;
  Ok {| row_id := Z.of_nat i; row_chunk_id := chunk_id; row_source := source;
        row_doc_path := doc_path; row_loc := loc; row_text := text;
        row_ents := ents |}.

Fixpoint insert_rows (ts : list (nat * json * json * json * json_text * json * json_text))
  : result (list meta_row) :=
  match ts with
  | [] => Ok []
  | t :: rest =>
      row <- insert_row t ;;
      rows <- insert_rows rest ;;
      Ok (row :: rows)
  end.

(** A run of the script that gets through: the [(id, text)] pairs whose
    embeddings go into the index (lines 55-61) and the rows of the fresh
    table [meta] (lines 70-98). *)
Definition embed_index (cs : list dict)
  : result (list (nat * string) * list meta_row) :=
  texts <- embed_texts cs ;;
  dim <- encode_dim texts ;;
  ts <- to_insert 0 cs ;;
  rows <- insert_rows ts ;;
  Ok (combine (seq 0 (List.length texts)) texts, rows).

End EmbedIndex.

(** ** api/main.py *)

(** A passage as [dense_search] builds it (lines 67-74). *)
Record passage {score : Type} : Type := {
  p_rank : nat;
  p_score : score;
  p_doc_path : string;
  p_loc : json;
  p_text : string;
  p_ents : json
}.
Arguments passage score : clear implicits.

(** The request body (lines 21-24). *)
Record query : Type := {
  question : string;
  top_k : Z;
  entities : option (list string)
}.

(** The response of [/chat] (lines 42-46 and 51-55). *)
Record response {score : Type} : Type := {
  r_question : string;
  r_answer : string;
  r_passages : list (passage score)
}.
Arguments response score : clear implicits.

(** The answer of line 44. *)
Definition no_match_answer : string :=
  String (ascii_of_nat 226) (String (ascii_of_nat 157) (String (ascii_of_nat 147)
    " No matching content found in your PDF corpus.")).

(** A value that can be a member of a set. *)
Definition hashable (v : json) : result json :=
  match v with
  | JStr _ | JInt _ => Ok v
  | JList _ => Raise "unhashable type: 'list'"
  | JDict _ => Raise "unhashable type: 'dict'"
  end.

(** [e["label"]] for an element [e] of the [ents] value. *)
Definition label_of (e : json) : result json :=
  match e with
  | JDict d => v <- getitem "label" d ;; hashable v
  | JStr _ => Raise "string indices must be integers"
  | JInt _ => Raise "'int' object is not subscriptable"
  | JList _ => Raise "list indices must be integers or slices, not str"
  end.

Fixpoint labels_of_list (es : list json) : result (list json) :=
  match es with
  | [] => Ok []
  | e :: rest =>
      l <- label_of e ;;
      ls <- labels_of_list rest ;;
      Ok (l :: ls)
  end.

(** Line 35: [{e["label"] for e in p.get("ents", [])}]. Iterating a dict
    yields its keys and iterating a [str] its characters, on which the
    subscript raises. *)
Definition labels_of (ents : json) : result (list json) :=
  match ents with
  | JList es => labels_of_list es
  | JDict [] => Ok []
  | JDict (_ :: _) => Raise "string indices must be integers"
  | JStr s => if truthy s then Raise "string indices must be integers" else Ok []
  | JInt _ => Raise "'int' object is not iterable"
  end.

(** Line 36: whether [labels.intersection(entities)] is non-empty. *)
Definition has_label_in (entities : list string) (labels : list json) : bool :=
  existsb (fun l => match l with
                    | JStr s => existsb (String.eqb s) entities
                    | _ => false
                    end) labels.

(** Ports of the viewer: [p["loc"].get("page", "?")] (ui/app.py line 90) and
    the page index [page_no - 1] that [render_page_png] loads
    (utils_pdf.py line 18). *)
Definition ui_page_no (loc : json) : result json :=
  match loc with
  | JDict d => Ok (get_default "page" (JStr "?") d)
  | _ => Raise "AttributeError"
  end.

Definition render_page_index (page_no : json) : result Z :=
  match page_no with
  | JInt n => Ok (n - 1)%Z
  | _ => Raise "TypeError"
  end.

Section Api.

Context {codec : JsonCodec}.
Variable score : Type.

(** [con.execute("SELECT ... WHERE id=?", (int(idx),)).fetchone()]: [id] is
    the primary key. *)
Definition fetch_row (meta : list meta_row) (idx : Z) : option meta_row :=
  find (fun r => Z.eqb (row_id r) idx) meta.

(** Lines 60-75, from rank [rank] on: [hits] are the [(D[0][rank],
    I[0][rank])] that [index.search] returned. *)
Fixpoint dense_search_from (meta : list meta_row) (rank : nat)
         (hits : list (score * Z)) : result (list (passage score)) :=
  match hits with
  | [] => Ok []
  | (s, idx) :: rest =>
      match fetch_row meta idx with
      | None => Raise "cannot unpack non-iterable NoneType object"
      | Some row =>
          loc <- loads (row_loc row) ;;
          ents <- loads (row_ents row) ;;
          out <- dense_search_from meta (S rank) rest ;;
          Ok ({| p_rank := rank; p_score := s; p_doc_path := row_doc_path row;
                 p_loc := loc; p_text := row_text row; p_ents := ents |} :: out)
      end
  end.

(** Lines 57-75. [search q k] is [index.search] on the embedded question. *)
Definition dense_search (search : string -> Z -> result (list (score * Z)))
           (meta : list meta_row) (q : string) (k : Z)
  : result (list (passage score)) :=
  hits <- search q k ;;
  dense_search_from meta 0 hits.

(** Lines 33-38. *)
Fixpoint filter_entities (ents : list string) (passages : list (passage score))
  : result (list (passage score)) :=
  match passages with
  | [] => Ok []
  | p :: rest =>
      labels <- labels_of (p_ents p) ;;
      filtered <- filter_entities ents rest ;;
      Ok (if has_label_in ents labels then p :: filtered else filtered)
  end.

(** Line 78: the numbered context lines. *)
Fixpoint context_lines (i : nat) (passages : list (passage score)) : list string :=
  match passages with
  | [] => []
  | p :: rest =>
      ("[" ++ NilZero.string_of_uint (Nat.to_uint i) ++ "] " ++ p_text p)%string
      :: context_lines (S i) rest
  end.

(** Lines 78-83. *)
Definition prompt_of (question : string) (passages : list (passage score)) : string :=
  ("Answer the user question using only the numbered context. "
   ++ "Cite passages like [0], [1]." ++ nl ++ nl ++ "### Context" ++ nl
   ++ join nl (context_lines 0 passages) ++ nl ++ nl ++ "### Question" ++ nl
   ++ question ++ nl ++ "### Answer:" ++ nl)%string.

(** Lines 26-55. [generate] is [ollama_generate] with the model of line
    84. *)
Definition chat (search : string -> Z -> result (list (score * Z)))
           (generate : string -> result string)
           (meta : list meta_row) (q : query) : result (response score) :=
  passages <- dense_search search meta (question q) (top_k q) ;;
  passages <- match entities q with
              | Some (e :: es) => filter_entities (e :: es) passages
              | _ => Ok passages
              end ;;
  match passages with
  | [] => Ok {| r_question := question q; r_answer := no_match_answer;
                r_passages := [] |}
  | _ :: _ =>
      answer <- generate (prompt_of (question q) passages) ;;
      Ok {| r_question := question q; r_answer := answer; r_passages := passages |}
  end.

End Api.

(** The texts pytesseract returned for the images of a page, in image
    order: on the primary path for the images with non-empty bytes, on the
    fallback path for every image. *)
Definition recognised (imgs : list fitz_image) : list string :=
  flat_map (fun img =>
              match image_bytes img, image_to_string img with
              | Ok raw, Ok s => if truthy raw then [s] else []
              | _, _ => []
              end) imgs.

Definition plumber_recognised (imgs : list plumber_image) : list string :=
  flat_map (fun img =>
              match plumb_to_string img with
              | Ok s => [s]
              | Raise _ => []
              end) imgs.

(** [text += "\n" + s] for each [s] in turn. *)
Definition append_lines (text : string) (lines : list string) : string :=
  fold_left (fun acc s => (acc ++ nl ++ s)%string) lines text.

(** ** Conditions used to state facts about the downstream scripts *)

(** A value sqlite3 can bind into a TEXT column. *)
Definition is_scalar (v : option json) : bool :=
  match v with
  | Some (JStr _) | Some (JInt _) => true
  | _ => false
  end.

Definition is_str (v : option json) : bool :=
  match v with
  | Some (JStr _) => true
  | _ => false
  end.

Definition is_some {A} (v : option A) : bool :=
  match v with
  | Some _ => true
  | None => false
  end.

(** A chunk embed_index.py can store: the five keys it subscripts are
    there, [text] is a [str] and the three TEXT values can be bound. *)
Definition indexable (c : dict) : bool :=
  (is_str (dict_get "text" c)
   && is_scalar (dict_get "chunk_id" c)
   && is_scalar (dict_get "source" c)
   && is_scalar (dict_get "doc_path" c)
   && is_some (dict_get "loc" c))%bool.

(** Whether the entity filter of [chat] keeps the passage. *)
Definition passage_has_label {score : Type} (ents : list string)
           (p : passage score) : bool :=
  match labels_of (p_ents p) with
  | Ok labels => has_label_in ents labels
  | Raise _ => false
  end.

(** ** Fixtures: a stub sentencizer and small documents *)

Fixpoint split_bar (s : string) : list string :=
  match s with
  | EmptyString => [""]
  | String c rest =>
      if Ascii.eqb c "|" then "" :: split_bar rest
      else match split_bar rest with
           | [] => [String c ""]
           | h :: t => String c h :: t
           end
  end.

Fixpoint lstrip_spaces (s : string) : string :=
  match s with
  | String c rest => if Ascii.eqb c " " then lstrip_spaces rest else s
  | EmptyString => s
  end.

Fixpoint rev_string (s acc : string) : string :=
  match s with
  | EmptyString => acc
  | String c rest => rev_string rest (String c acc)
  end.

(** One sentence per [|]-separated field; [strip] removes spaces. *)
Definition stub_segmenter : Segmenter := {|
  nlp_sents := split_bar;
  strip := fun s => rev_string (lstrip_spaces (rev_string (lstrip_spaces s) "")) ""
|}.

Definition caps_none : Capabilities :=
  {| HAS_REPAIR := false; HAS_PLUMBER := false; HAS_OCR := false; HAS_TABLES := false |}.
Definition caps_all : Capabilities :=
  {| HAS_REPAIR := true; HAS_PLUMBER := true; HAS_OCR := true; HAS_TABLES := true |}.
Definition caps_ocr : Capabilities :=
  {| HAS_REPAIR := false; HAS_PLUMBER := false; HAS_OCR := true; HAS_TABLES := false |}.
Definition caps_plumber : Capabilities :=
  {| HAS_REPAIR := false; HAS_PLUMBER := true; HAS_OCR := false; HAS_TABLES := false |}.

Definition doc_of_pages (pages : list (result fitz_page)) : fitz_doc :=
  {| page_count := List.length pages;
     load_page := fun n => nth n pages (Raise "page not in document") |}.

Definition text_page (text : string) : result fitz_page :=
  Ok {| get_text := Ok text; get_images := Ok [] |}.

Definition pdf_of (path name : string) (doc : result fitz_doc)
           (camelot : nat -> result (list (result string)))
           (plumber : nat -> result (list plumber_page)) : pdf :=
  {| path_str := path; path_name := name;
     pikepdf_repair := Raise "repair failed";
     fitz_open_fixed := Raise "not repaired";
     fitz_open := doc;
     camelot_read_pdf := camelot;
     pdfplumber_open := plumber |}.

Definition no_camelot : nat -> result (list (result string)) :=
  fun _ => Raise "camelot: no tables".
Definition no_plumber : nat -> result (list plumber_page) :=
  fun _ => Raise "pdfplumber: cannot open".

Definition seven_sentences : string := "S1|S2|S3|S4|S5|S6|S7".

(** Page 1 has seven sentences, page 2 fails both extraction attempts. *)
Definition pdf_two_pages : pdf :=
  pdf_of "raw/pdf/a.pdf" "a.pdf"
    (Ok (doc_of_pages [text_page seven_sentences; Raise "page 2 is damaged"]))
    no_camelot no_plumber.

(** A document that cannot be opened. *)
Definition pdf_unopenable : pdf :=
  pdf_of "raw/pdf/broken.pdf" "broken.pdf" (Raise "cannot open broken file")
    no_camelot no_plumber.



(** One page the primary engine cannot load; pdfplumber reads its text but
    raises while extracting its tables. *)
Definition pdf_plumber_table_fails : pdf :=
  pdf_of "raw/pdf/t.pdf" "t.pdf"
    (Ok (doc_of_pages [Raise "cannot load page"]))
    no_camelot
    (fun _ => Ok [ {| extract_text := Ok (Some "Fallback text.");
                      extract_tables := Raise "table finder failed";
                      images := Ok [] |} ]).

(** One page of native text on which camelot finds one table. *)
Definition pdf_one_table : pdf :=
  pdf_of "raw/pdf/r.pdf" "r.pdf"
    (Ok (doc_of_pages [text_page "Report."]))
    (fun _ => Ok [Ok "a,b"; Ok "c,d"])
    no_plumber.

Definition pdf_b : pdf :=
  pdf_of "raw/pdf/b.pdf" "b.pdf"
    (Ok (doc_of_pages [text_page "Second."]))
    no_camelot no_plumber.

Definition uuid_zero : uuid_gen := fun _ => "00000000-0000-4000-8000-000000000000".

(** A uuid source that never repeats. *)
Fixpoint uuid_tally (n : nat) : string :=
  match n with
  | 0 => "u"
  | S n' => String "u" (uuid_tally n')
  end.

(** Page 1 holds only spaces, page 2 one sentence and two tables (the third
    table fails to serialise), page 3 cannot be loaded. *)
Definition pdf_mixed : pdf :=
  pdf_of "raw/pdf/m.pdf" "m.pdf"
    (Ok (doc_of_pages [text_page "   "; text_page "Totals."; Raise "page 3 is damaged"]))
    (fun page_no =>
       match page_no with
       | 1 => Ok [Ok "a,b"; Ok "c,d"; Raise "cannot serialise"; Ok "e,f"]
       | _ => Ok []
       end)
    no_plumber.

(** The repaired copy opens, the original does not. *)
Definition pdf_repaired : pdf :=
  {| path_str := "raw/pdf/fix.pdf"; path_name := "fix.pdf";
     pikepdf_repair := Ok tt;
     fitz_open_fixed := Ok (doc_of_pages [text_page "Repaired."]);
     fitz_open := Raise "cannot open broken file";
     camelot_read_pdf := no_camelot;
     pdfplumber_open := no_plumber |}.

Definition caps_tables : Capabilities :=
  {| HAS_REPAIR := false; HAS_PLUMBER := false; HAS_OCR := false; HAS_TABLES := true |}.

(** A stub recogniser: the first three characters of a non-empty text, as
    an ORG. *)
Definition stub_ner : EntityRecognizer :=
  {| ner_ents := fun s => if truthy s then [(substring 0 3 s, "ORG")] else [] |}.

(** A codec that keeps the value itself as its serialised text. *)
Definition plain_codec : JsonCodec :=
  {| json_text := json; dumps := fun j => j; loads := fun j => Ok j |}.


(** The chunk file of a run over the document with two tables, as written
    by extract_pdf.py and as rewritten by enrich_chunks.py. *)
Definition demo_chunks : list dict :=
  all_chunks (aggregate (run_tasks (caps := caps_all) (seg := stub_segmenter)
                           (fun _ => uuid_zero) [pdf_one_table])).

Definition demo_enriched : list dict :=
  match enrich_chunks (ner := stub_ner) demo_chunks with
  | Ok cs => cs
  | Raise _ => []
  end.

(** An encoder with embeddings of width 384, which raises on no text. *)
Definition stub_encoder : Encoder :=
  {| encode_dim := fun texts =>
       match texts with
       | [] => Raise "tuple index out of range"
       | _ :: _ => Ok 384
       end |}.

(** The table [meta] that embed_index.py builds from the enriched file. *)
Definition demo_meta : list (meta_row (codec := plain_codec)) :=
  match embed_index (codec := plain_codec) (enc := stub_encoder) demo_enriched with
  | Ok (_, rows) => rows
  | Raise _ => []
  end.

(** An index that answers every question with chunk 2, then chunk 0; one
    that also returns the id [-1]. *)
Definition demo_search : string -> Z -> result (list (nat * Z)) :=
  fun _ _ => Ok [(90, 2%Z); (70, 0%Z)].

Definition padded_search : string -> Z -> result (list (nat * Z)) :=
  fun _ _ => Ok [(90, 2%Z); (0, (-1)%Z)].

Definition demo_query (ents : option (list string)) : query :=
  {| question := "What is in the report?"; top_k := 2; entities := ents |}.


(** One page of native text with three images: the second has no bytes. *)
Definition image_reads (bytes s : string) : fitz_image :=
  {| xref := 1; image_bytes := Ok bytes; Image_open := Ok tt;
     image_to_string := Ok s; im_save := Ok tt |}.

Definition pdf_scanned : pdf :=
  pdf_of "raw/pdf/s.pdf" "s.pdf"
    (Ok (doc_of_pages
           [Ok {| get_text := Ok "Native.";
                  get_images := Ok [image_reads "PNG" "First."; image_reads "" "Unseen.";
                                    image_reads "PNG" "Third."] |}]))
    no_camelot no_plumber.

(** ** Facts about the builtins *)

Ltac Zify.zify_post_hook ::= Z.to_euclidean_division_equations.



Lemma map_seq_succ {A} (f : nat -> A) (a n : nat) :
  map f (seq (S a) n) = map (fun k => f (S k)) (seq a n).
Proof. rewrite <- seq_shift, map_map. reflexivity. Qed.

(** [range(i, stop, 3)] lists [i, i+3, ...] below [stop] once the fuel
    covers the distance. *)
Lemma range_from_STEP (fuel i stop : nat) :
  stop - i <= fuel ->
  range_from fuel i stop STEP =
  map (fun k => i + k * STEP) (seq 0 ((stop - i + STEP - 1) / STEP)).
Proof.
  change STEP with 3.
  revert i. induction fuel as [|fuel IH]; intros i Hfuel.
  - replace ((stop - i + 3 - 1) / 3) with 0 by lia. reflexivity.
  - cbn [range_from]. destruct (Nat.ltb_spec i stop) as [Hlt|Hge].
    + replace ((stop - i + 3 - 1) / 3) with (S ((stop - (i + 3) + 3 - 1) / 3)) by lia.
      cbn [seq map]. rewrite map_seq_succ, IH by lia.
      f_equal; [lia|]. apply map_ext. intros k. lia.
    + replace ((stop - i + 3 - 1) / 3) with 0 by lia. reflexivity.
Qed.

Lemma range_step_starts (n : nat) : range_step n STEP = window_starts n.
Proof.
  unfold range_step, window_starts. rewrite range_from_STEP by lia.
  rewrite Nat.sub_0_r. apply map_ext. intros k. lia.
Qed.

Lemma window_starts_In (n i : nat) :
  In i (window_starts n) <-> i < n /\ exists k, i = k * STEP.
Proof.
  unfold window_starts. change STEP with 3.
  rewrite in_map_iff. split.
  - intros (k & <- & Hk). apply in_seq in Hk. split; [lia | now exists k].
  - intros (Hlt & k & ->). exists k. split; [reflexivity|]. apply in_seq. lia.
Qed.

Lemma NoDup_map_inj {A B} (f : A -> B) (l : list A) :
  (forall a b, f a = f b -> a = b) -> NoDup l -> NoDup (map f l).
Proof.
  intros Hinj Hl. induction Hl as [|x l Hx Hl IH]; cbn [map]; constructor; auto.
  rewrite in_map_iff. intros (y & Hy & Hin). apply Hinj in Hy. now subst.
Qed.

Lemma window_starts_NoDup (n : nat) : NoDup (window_starts n).
Proof.
  unfold window_starts. apply NoDup_map_inj; [|apply seq_NoDup].
  intros a b. change STEP with 3. lia.
Qed.


Lemma slice_length {A} (l : list A) (i : nat) :
  List.length (slice l i (i + WINDOW)) = Nat.min (i + WINDOW) (List.length l) - i.
Proof.
  unfold slice. rewrite length_firstn, length_skipn. lia.
Qed.







(** ** Facts about the chunker *)

Section Properties.

Context {caps : Capabilities} {seg : Segmenter}.

Lemma window_chunk_loc d page_no id tables i win :
  chunk_loc (window_chunk (base_chunk d page_no id tables) i win) =
  [ ("page", JInt (Z.of_nat page_no + 1));
    ("start_sent", JInt (Z.of_nat i + 1));
    ("end_sent", JInt (Z.of_nat i + Z.of_nat (List.length win))) ].
Proof. reflexivity. Qed.

Lemma window_chunk_text d page_no id tables i win :
  chunk_text (window_chunk (base_chunk d page_no id tables) i win) =
  Some (JStr (join " " win)).
Proof. reflexivity. Qed.

Lemma window_chunk_is_text d page_no id tables i win :
  is_text (window_chunk (base_chunk d page_no id tables) i win) = true.
Proof. reflexivity. Qed.

Lemma table_chunk_is_text d page_no id tables ti tbl :
  is_text (table_chunk (base_chunk d page_no id tables) ti tbl) = false.
Proof. reflexivity. Qed.

Lemma table_chunk_is_table d page_no id tables ti tbl :
  is_table (table_chunk (base_chunk d page_no id tables) ti tbl) = true.
Proof. reflexivity. Qed.

Lemma table_chunk_loc d page_no id tables ti tbl :
  chunk_loc (table_chunk (base_chunk d page_no id tables) ti tbl) =
  [ ("page", JInt (Z.of_nat page_no + 1)) ].
Proof. reflexivity. Qed.

Lemma table_chunk_table_no d page_no id tables ti tbl :
  dict_get "table_no" (table_chunk (base_chunk d page_no id tables) ti tbl) =
  Some (JInt (Z.of_nat ti)).
Proof. reflexivity. Qed.

Lemma text_chunks_is_text d page_no id tables text :
  forallb is_text (text_chunks (base_chunk d page_no id tables) text) = true.
Proof.
  unfold text_chunks. destruct (sentences text) as [|s ss]; [reflexivity|].
  rewrite forallb_forall. intros c Hc. apply in_map_iff in Hc.
  destruct Hc as ([i win] & <- & _). reflexivity.
Qed.

Lemma text_chunks_not_table d page_no id tables text :
  forallb (fun c => negb (is_table c)) (text_chunks (base_chunk d page_no id tables) text) = true.
Proof.
  unfold text_chunks. destruct (sentences text) as [|s ss]; [reflexivity|].
  rewrite forallb_forall. intros c Hc. apply in_map_iff in Hc.
  destruct Hc as ([i win] & <- & _). reflexivity.
Qed.

Lemma table_chunks_not_text d page_no id tables tbls :
  filter is_text (table_chunks (base_chunk d page_no id tables) tbls) = [].
Proof.
  unfold table_chunks. generalize 0. induction tbls as [|t tbls IH]; intros n.
  - reflexivity.
  - cbn [enumerate_from map filter fst snd]. rewrite table_chunk_is_text. apply IH.
Qed.

Lemma filter_all {A} (f : A -> bool) (l : list A) :
  forallb f l = true -> filter f l = l.
Proof.
  induction l as [|x l IH]; cbn [forallb filter]; [reflexivity|].
  intros H. apply andb_prop in H. destruct H as [Hx Hl]. rewrite Hx. f_equal. auto.
Qed.

Lemma filter_none {A} (f : A -> bool) (l : list A) :
  forallb (fun x => negb (f x)) l = true -> filter f l = [].
Proof.
  induction l as [|x l IH]; cbn [forallb filter]; [reflexivity|].
  intros H. apply andb_prop in H. destruct H as [Hx Hl].
  apply negb_true_iff in Hx. rewrite Hx. auto.
Qed.

(** The text chunks of a page are exactly what [text_chunks] appended. *)
Lemma page_chunks_text d page_no id text tables :
  filter is_text (page_chunks d page_no id text tables) =
  text_chunks (base_chunk d page_no id tables) text.
Proof.
  unfold page_chunks. rewrite filter_app, table_chunks_not_text, app_nil_r.
  apply filter_all, text_chunks_is_text.
Qed.

Lemma text_chunks_windows base text :
  sentences text <> [] ->
  text_chunks base text =
  map (fun i => window_chunk base i (slice (sentences text) i (i + WINDOW)))
      (window_starts (List.length (sentences text))).
Proof.
  intros Hne. unfold text_chunks, page_windows.
  destruct (sentences text) as [|s ss] eqn:E; [congruence|].
  rewrite map_map, range_step_starts. reflexivity.
Qed.


(** ** Facts about the page loop *)



Lemma text_chunks_page d page_no id tables text c :
  In c (text_chunks (base_chunk d page_no id tables) text) ->
  chunk_page c = Some (JInt (Z.of_nat page_no + 1)).
Proof.
  unfold text_chunks. destruct (sentences text) as [|s ss].
  - intros [<-|[]]. reflexivity.
  - intros Hc. apply in_map_iff in Hc. destruct Hc as ([i win] & <- & _). reflexivity.
Qed.

Lemma table_chunks_page d page_no id tables tbls c :
  In c (table_chunks (base_chunk d page_no id tables) tbls) ->
  chunk_page c = Some (JInt (Z.of_nat page_no + 1)).
Proof.
  unfold table_chunks. intros Hc. apply in_map_iff in Hc.
  destruct Hc as ([ti tbl] & <- & _). reflexivity.
Qed.

Lemma page_contrib_page d doc page_no id c :
  In c (page_contrib d doc page_no id) ->
  chunk_page c = Some (JInt (Z.of_nat page_no + 1)).
Proof.
  unfold page_contrib. destruct (extract_page d doc page_no) as [text tables|r]; [|intros []].
  unfold page_chunks. intros Hc. apply in_app_or in Hc. destruct Hc as [Hc|Hc].
  - eapply text_chunks_page; eassumption.
  - eapply table_chunks_page; eassumption.
Qed.

Lemma page_skips_page d doc page_no r :
  In r (page_skips d doc page_no) -> snd (fst r) = (Z.of_nat page_no + 1)%Z.
Proof.
  unfold page_skips, extract_page.
  destruct (primary_attempt d doc page_no) as [[text tables]|e]; [intros []|].
  destruct HAS_PLUMBER.
  - destruct (fallback_attempt d page_no) as [[text tables]|e2]; [intros []|].
    intros [<-|[]]. reflexivity.
  - intros [<-|[]]. reflexivity.
Qed.

Lemma filter_page_contrib d doc p q id :
  filter (on_page (Z.of_nat q + 1)) (page_contrib d doc p id) =
  if Nat.eqb p q then page_contrib d doc p id else [].
Proof.
  destruct (Nat.eqb_spec p q) as [->|Hne].
  - apply filter_all, forallb_forall. intros c Hc.
    unfold on_page. rewrite (page_contrib_page _ _ _ _ _ Hc). apply Z.eqb_refl.
  - apply filter_none, forallb_forall. intros c Hc.
    unfold on_page. rewrite (page_contrib_page _ _ _ _ _ Hc).
    apply negb_true_iff, Z.eqb_neq. lia.
Qed.

Lemma filter_page_skips d doc p q :
  filter (skipped_on_page (Z.of_nat q + 1)) (page_skips d doc p) =
  if Nat.eqb p q then page_skips d doc p else [].
Proof.
  destruct (Nat.eqb_spec p q) as [->|Hne].
  - apply filter_all, forallb_forall. intros r Hr.
    unfold skipped_on_page. rewrite (page_skips_page _ _ _ _ Hr). apply Z.eqb_refl.
  - apply filter_none, forallb_forall. intros r Hr.
    unfold skipped_on_page. rewrite (page_skips_page _ _ _ _ Hr).
    apply negb_true_iff, Z.eqb_neq. lia.
Qed.

(** One iteration appends the page's contribution to each accumulator. *)
Lemma process_page_appends d doc g st page_no :
  chunks (process_page d doc g st page_no) =
    chunks st ++ page_contrib d doc page_no (g (uuid_calls st)) /\
  skipped_pages (process_page d doc g st page_no) =
    skipped_pages st ++ page_skips d doc page_no.
Proof.
  unfold process_page, page_contrib, page_skips.
  destruct (extract_page d doc page_no) as [text tables|r]; cbn [chunks skipped_pages];
    rewrite ?app_nil_r; split; reflexivity.
Qed.

(** The loop over the pages [ps] from state [st]: page by page, in order. *)
Lemma fold_process_page d doc g ps : forall st,
  exists ids,
    List.length ids = List.length ps /\
    chunks (fold_left (process_page d doc g) ps st) =
      chunks st ++ List.concat (map (fun pi => page_contrib d doc (fst pi) (snd pi))
                               (combine ps ids)) /\
    skipped_pages (fold_left (process_page d doc g) ps st) =
      skipped_pages st ++ flat_map (page_skips d doc) ps.
Proof.
  induction ps as [|p ps IH]; intros st.
  - exists []. cbn. rewrite !app_nil_r. auto.
  - cbn [fold_left]. destruct (IH (process_page d doc g st p)) as (ids & Hlen & Hc & Hs).
    destruct (process_page_appends d doc g st p) as [Hc1 Hs1].
    exists (g (uuid_calls st) :: ids). split; [cbn; lia|]. split.
    + rewrite Hc, Hc1. cbn [combine map List.concat fst snd]. now rewrite app_assoc.
    + rewrite Hs, Hs1. cbn [flat_map]. now rewrite app_assoc.
Qed.

Lemma filter_concat_pages d doc q ps : forall ids,
  NoDup ps -> List.length ids = List.length ps ->
  (In q ps ->
   exists id,
     filter (on_page (Z.of_nat q + 1))
       (List.concat (map (fun pi => page_contrib d doc (fst pi) (snd pi)) (combine ps ids)))
     = page_contrib d doc q id) /\
  (~ In q ps ->
     filter (on_page (Z.of_nat q + 1))
       (List.concat (map (fun pi => page_contrib d doc (fst pi) (snd pi)) (combine ps ids)))
     = []).
Proof.
  induction ps as [|p ps IH]; intros ids Hnd Hlen.
  - split; [intros []|reflexivity].
  - destruct ids as [|id ids]; [discriminate|].
    inversion Hnd as [|? ? Hp Hnd']; subst.
    destruct (IH ids Hnd') as [IHin IHout]; [cbn in Hlen; lia|].
    cbn [combine map List.concat fst snd]. rewrite filter_app, filter_page_contrib.
    split.
    + intros [->|Hin].
      * rewrite Nat.eqb_refl, IHout, app_nil_r by assumption. now exists id.
      * destruct (Nat.eqb_spec p q) as [->|Hne]; [contradiction|].
        cbn [app]. now apply IHin.
    + intros Hout. destruct (Nat.eqb_spec p q) as [->|Hne].
      * exfalso. apply Hout. now left.
      * cbn [app]. apply IHout. intros Hin. apply Hout. now right.
Qed.

Lemma filter_flat_map_skips d doc q ps :
  NoDup ps ->
  filter (skipped_on_page (Z.of_nat q + 1)) (flat_map (page_skips d doc) ps) =
  if in_dec Nat.eq_dec q ps then page_skips d doc q else [].
Proof.
  induction ps as [|p ps IH]; intros Hnd; [reflexivity|].
  inversion Hnd as [|? ? Hp Hnd']; subst.
  cbn [flat_map]. rewrite filter_app, filter_page_skips, IH by assumption.
  destruct (Nat.eqb_spec p q) as [->|Hne].
  - destruct (in_dec Nat.eq_dec q ps) as [Hin|_]; [contradiction|].
    destruct (in_dec Nat.eq_dec q (q :: ps)) as [_|Hout]; [apply app_nil_r|].
    exfalso. apply Hout. now left.
  - cbn [app]. destruct (in_dec Nat.eq_dec q ps) as [Hin|Hout];
      destruct (in_dec Nat.eq_dec q (p :: ps)) as [Hin'|Hout']; try reflexivity.
    + exfalso. apply Hout'. now right.
    + destruct Hin' as [->|Hin']; contradiction.
Qed.

(** An opened document is processed to the end, and its output read page by
    page is what each page contributed. *)
Lemma process_pdf_by_page d g doc :
  open_pdf d = Ok doc ->
  exists cs sp,
    process_pdf d g = Ok (cs, sp) /\
    (forall q, q < page_count doc ->
       (exists id, filter (on_page (Z.of_nat q + 1)) cs = page_contrib d doc q id) /\
       filter (skipped_on_page (Z.of_nat q + 1)) sp = page_skips d doc q) /\
    (forall c, In c cs ->
       exists q id, q < page_count doc /\ In c (page_contrib d doc q id)).
Proof.
  intros Hopen. unfold process_pdf. rewrite Hopen. cbn [bind].
  unfold process_pages.
  destruct (fold_process_page d doc g (seq 0 (page_count doc))
              {| chunks := []; skipped_pages := []; uuid_calls := 0 |})
    as (ids & Hlen & Hc & Hs).
  cbn [chunks skipped_pages app] in Hc, Hs.
  eexists. eexists. split; [reflexivity|]. rewrite Hc, Hs. split.
  - intros q Hq.
    assert (Hin : In q (seq 0 (page_count doc))) by (apply in_seq; lia).
    split.
    + destruct (filter_concat_pages d doc q _ ids (seq_NoDup _ _) Hlen) as [H _]. now apply H.
    + rewrite filter_flat_map_skips by apply seq_NoDup.
      destruct (in_dec Nat.eq_dec q (seq 0 (page_count doc))); [reflexivity|contradiction].
  - intros c Hin. apply in_concat in Hin. destruct Hin as (l & Hl & Hcl).
    apply in_map_iff in Hl. destruct Hl as ([p id] & <- & Hpi).
    apply in_combine_l in Hpi. apply in_seq in Hpi.
    exists p, id. split; [lia|exact Hcl].
Qed.

(** The chunks of a page that was not skipped, as found in the output. *)
Lemma process_pdf_page_output d g doc cs sp page_no text tables :
  open_pdf d = Ok doc ->
  process_pdf d g = Ok (cs, sp) ->
  page_no < page_count doc ->
  extract_page d doc page_no = Extracted text tables ->
  exists id,
    filter (on_page (Z.of_nat page_no + 1)) cs = page_chunks d page_no id text tables.
Proof.
  intros Hopen Hrun Hlt Hex.
  destruct (process_pdf_by_page d g doc Hopen) as (cs' & sp' & Hrun' & Hpages & _).
  rewrite Hrun in Hrun'. inversion Hrun'; subst cs' sp'. clear Hrun'.
  destruct (Hpages page_no Hlt) as [[id Hc] _]. exists id.
  rewrite Hc. unfold page_contrib. now rewrite Hex.
Qed.

(** C1: a page whose text has [N >= 1] sentences gets one text chunk per start
    index [i = 0, S, 2S, ...] below [N] ([W = 5], [O = 2], [S = 3]), in that
    order; the chunk joins sentences [i .. min(i+W, N) - 1] and records
    [start_sent = i+1] and [end_sent = min(i+W, N)]. These are the page's
    text chunks in the output of [process_pdf]. Seven sentences give the
    ranges [1,5], [4,7], [7,7]. *)
Theorem C1_sliding_window_chunks d page_no id text tables :
  let sents := sentences text in
  let N := List.length sents in
  let base := base_chunk d page_no id tables in
  let texts := filter is_text (page_chunks d page_no id text tables) in
  sents <> [] ->
  WINDOW = 5 /\ OVERLAP = 2 /\ STEP = 3 /\
  (forall i, In i (window_starts N) <-> i < N /\ exists k, i = k * STEP) /\
  NoDup (window_starts N) /\
  texts = map (fun i => window_chunk base i (slice sents i (i + WINDOW)))
              (window_starts N) /\
  (forall i, i < N ->
     let c := window_chunk base i (slice sents i (i + WINDOW)) in
     chunk_elem_type c = Some (JStr "text") /\
     chunk_page c = Some (JInt (Z.of_nat page_no + 1)) /\
     sent_range c = (Some (JInt (Z.of_nat i + 1)),
                     Some (JInt (Z.of_nat (Nat.min (i + WINDOW) N)))) /\
     chunk_text c = Some (JStr (join " " (firstn (Nat.min (i + WINDOW) N - i)
                                                 (skipn i sents))))) /\
  (forall doc g cs sp,
     open_pdf d = Ok doc ->
     process_pdf d g = Ok (cs, sp) ->
     page_no < page_count doc ->
     extract_page d doc page_no = Extracted text tables ->
     exists chunk_id,
       filter is_text (filter (on_page (Z.of_nat page_no + 1)) cs) =
       map (fun i => window_chunk (base_chunk d page_no chunk_id tables) i
                                  (slice sents i (i + WINDOW)))
           (window_starts N)) /\
  (N = 7 ->
     map sent_range texts =
     [ (Some (JInt 1), Some (JInt 5));
       (Some (JInt 4), Some (JInt 7));
       (Some (JInt 7), Some (JInt 7)) ]).
Proof.
  intros sents N base texts Hne.
  assert (Htexts : texts = map (fun i => window_chunk base i (slice sents i (i + WINDOW)))
                               (window_starts N)).
  { unfold texts. rewrite page_chunks_text. now apply text_chunks_windows. }
  split; [reflexivity|]. split; [reflexivity|]. split; [reflexivity|].
  split; [intros i; apply window_starts_In|].
  split; [apply window_starts_NoDup|].
  split; [exact Htexts|].
  split; [|split].
  - intros i Hi c. subst c base.
    split; [reflexivity|]. split; [reflexivity|]. split.
    + unfold sent_range. rewrite window_chunk_loc. cbn.
      rewrite slice_length. fold N. do 3 f_equal. lia.
    + rewrite window_chunk_text. do 3 f_equal. unfold slice.
      destruct (Nat.le_ge_cases (i + WINDOW) N) as [Hle|Hge].
      * rewrite Nat.min_l by assumption. reflexivity.
      * rewrite Nat.min_r by assumption.
        rewrite !firstn_all2; [reflexivity| |]; rewrite length_skipn; fold N; lia.
  - intros doc g cs sp Hopen Hrun Hlt Hex.
    destruct (process_pdf_page_output d g doc cs sp page_no text tables
                Hopen Hrun Hlt Hex) as [chunk_id Hout].
    exists chunk_id. rewrite Hout, page_chunks_text. now apply text_chunks_windows.
  - intros H7. rewrite Htexts. subst N base. clear Htexts texts Hne. clearbody sents.
    do 8 (destruct sents as [|? sents]; try discriminate H7).
    reflexivity.
Qed.


Lemma process_pdf_opened d g cs sp :
  process_pdf d g = Ok (cs, sp) -> exists doc, open_pdf d = Ok doc.
Proof.
  unfold process_pdf. destruct (open_pdf d) as [doc|e]; [|discriminate].
  intros _. now exists doc.
Qed.

Lemma nth_error_table_chunks base tables k c : forall start,
  nth_error (map (fun it => table_chunk base (fst it) (snd it))
                 (enumerate_from start tables)) k = Some c ->
  exists tbl, nth_error tables k = Some tbl /\ c = table_chunk base (start + k) tbl.
Proof.
  revert k. induction tables as [|t tables IH]; intros k start H.
  - destruct k; discriminate.
  - destruct k as [|k]; cbn [enumerate_from map nth_error fst snd] in *.
    + inversion H; subst. exists t. split; [reflexivity|]. f_equal. lia.
    + destruct (IH k (S start) H) as (tbl & Hn & ->).
      exists tbl. split; [assumption|]. f_equal. lia.
Qed.

Lemma table_chunks_nth d page_no id tables tbls k c :
  nth_error (table_chunks (base_chunk d page_no id tables) tbls) k = Some c ->
  exists tbl, nth_error tbls k = Some tbl /\
              c = table_chunk (base_chunk d page_no id tables) k tbl.
Proof. intros H. apply nth_error_table_chunks in H. exact H. Qed.

(** The chunks of one page in the output of [process_pdf]: the text chunks,
    then the table chunks in the order of [tables]. *)
Lemma page_output_texts_then_tables d g doc cs sp page_no :
  open_pdf d = Ok doc ->
  process_pdf d g = Ok (cs, sp) ->
  page_no < page_count doc ->
  exists texts tbls,
    filter (on_page (Z.of_nat page_no + 1)) cs = texts ++ tbls /\
    forallb is_text texts = true /\
    forallb (fun c => negb (is_table c)) texts = true /\
    (forall k c, nth_error tbls k = Some c ->
       chunk_elem_type c = Some (JStr "table") /\
       is_text c = false /\
       dict_get "table_no" c = Some (JInt (Z.of_nat k)) /\
       forall text tables, extract_page d doc page_no = Extracted text tables ->
         exists tbl, nth_error tables k = Some tbl /\ chunk_text c = Some (JStr tbl)) /\
    (forall text tables, extract_page d doc page_no = Extracted text tables ->
       List.length tbls = List.length tables) /\
    (forall j k cj ck nj nk,
       j < k -> nth_error tbls j = Some cj -> nth_error tbls k = Some ck ->
       dict_get "table_no" cj = Some (JInt nj) ->
       dict_get "table_no" ck = Some (JInt nk) -> (nj < nk)%Z).
Proof.
  intros Hopen Hrun Hlt.
  destruct (process_pdf_by_page d g doc Hopen) as (cs' & sp' & Hrun' & Hpages & _).
  rewrite Hrun in Hrun'. inversion Hrun'; subst cs' sp'. clear Hrun'.
  destruct (Hpages page_no Hlt) as [[id Hc] _]. rewrite Hc.
  unfold page_contrib.
  destruct (extract_page d doc page_no) as [text tables|r].
  - unfold page_chunks.
    exists (text_chunks (base_chunk d page_no id tables) text),
           (table_chunks (base_chunk d page_no id tables) tables).
    split; [reflexivity|].
    split; [apply text_chunks_is_text|].
    split; [apply text_chunks_not_table|].
    assert (Hnth : forall k c,
               nth_error (table_chunks (base_chunk d page_no id tables) tables) k = Some c ->
               exists tbl, nth_error tables k = Some tbl /\
                           c = table_chunk (base_chunk d page_no id tables) k tbl)
      by (intros; now apply table_chunks_nth).
    split; [|split].
    + intros k c Hk. destruct (Hnth k c Hk) as (tbl & Htbl & ->).
      split; [reflexivity|]. split; [reflexivity|]. split; [reflexivity|].
      intros text' tables' Heq. inversion Heq; subst. now exists tbl.
    + intros text' tables' Heq. inversion Heq; subst.
      unfold table_chunks. rewrite length_map. generalize 0.
      clear. induction tables' as [|t ts IH]; intros n; [reflexivity|].
      cbn [enumerate_from List.length]. now rewrite IH.
    + intros j k cj ck nj nk Hjk Hj Hk Hnj Hnk.
      destruct (Hnth j cj Hj) as (tj & _ & ->).
      destruct (Hnth k ck Hk) as (tk & _ & ->).
      rewrite table_chunk_table_no in Hnj, Hnk.
      inversion Hnj; inversion Hnk; subst. lia.
  - exists [], []. split; [reflexivity|]. split; [reflexivity|]. split; [reflexivity|].
    split; [|split].
    + intros k c Hk. destruct k; discriminate.
    + intros text tables Heq. discriminate.
    + intros j k cj ck nj nk _ Hj. destruct j; discriminate.
Qed.

(** C7 (as the code has it): a table chunk's [loc] holds the page number
    and nothing else, and the table index is the chunk's own top-level field
    [table_no]; the text chunk of a sentence window does hold [start_sent]
    and [end_sent] inside [loc]. *)
Theorem C7_table_no_is_a_top_level_field d g cs sp c :
  process_pdf d g = Ok (cs, sp) ->
  In c cs ->
  (is_table c = true ->
     exists page_no ti,
       chunk_loc c = [("page", JInt (Z.of_nat page_no + 1))] /\
       dict_get "table_no" (chunk_loc c) = None /\
       dict_get "table_no" c = Some (JInt (Z.of_nat ti))) /\
  (is_text c = true ->
     exists page_no,
       chunk_page c = Some (JInt (Z.of_nat page_no + 1)) /\
       dict_get "table_no" c = None /\
       (chunk_loc c = [("page", JInt (Z.of_nat page_no + 1))] \/
        exists i n,
          chunk_loc c = [ ("page", JInt (Z.of_nat page_no + 1));
                          ("start_sent", JInt (Z.of_nat i + 1));
                          ("end_sent", JInt (Z.of_nat i + Z.of_nat n)) ])).
Proof.
  intros Hrun Hin.
  destruct (process_pdf_opened d g cs sp Hrun) as [doc Hopen].
  destruct (process_pdf_by_page d g doc Hopen) as (cs' & sp' & Hrun' & _ & Hmem).
  rewrite Hrun in Hrun'. inversion Hrun'; subst cs' sp'. clear Hrun'.
  destruct (Hmem c Hin) as (q & id & _ & Hc).
  unfold page_contrib in Hc.
  destruct (extract_page d doc q) as [text tables|r]; [|destruct Hc].
  unfold page_chunks in Hc. apply in_app_or in Hc. destruct Hc as [Hc|Hc].
  - unfold text_chunks in Hc. destruct (sentences text) as [|s ss].
    + destruct Hc as [<-|[]]. split; [discriminate|].
      intros _. exists q. split; [reflexivity|]. split; [reflexivity|]. now left.
    + apply in_map_iff in Hc. destruct Hc as ([i win] & <- & _).
      split; [discriminate|].
      intros _. exists q. split; [reflexivity|]. split; [reflexivity|].
      right. exists i, (List.length win). reflexivity.
  - unfold table_chunks in Hc. apply in_map_iff in Hc.
    destruct Hc as ([ti tbl] & <- & _). split; [|discriminate].
    intros _. exists q, ti. repeat split.
Qed.

(** ** Facts about the fallback control flow *)

(** The two views of lines 101-158 agree: the block-by-block run ends in the
    state the nested [try]/[except] yields. *)
Lemma page_trace_last d doc page_no :
  last (page_trace d doc page_no) PrimaryAttempt =
  state_of_outcome (extract_page d doc page_no).
Proof.
  unfold page_trace, extract_page. cbn [page_run is_final page_step].
  destruct (primary_attempt d doc page_no) as [[text tables]|e]; [reflexivity|].
  destruct HAS_PLUMBER; [|reflexivity].
  cbn [is_final page_step].
  destruct (fallback_attempt d page_no) as [[text tables]|e2]; reflexivity.
Qed.

Lemma process_page_skipped d doc g st page_no r :
  extract_page d doc page_no = SkippedPage r ->
  process_page d doc g st page_no =
  {| chunks := chunks st;
     skipped_pages := skipped_pages st ++ [r];
     uuid_calls := uuid_calls st |}.
Proof. intros H. unfold process_page. now rewrite H. Qed.


(** C4: when the primary attempt raises [e] and pdfplumber is available,
    the fallback attempt runs exactly once; if it raises [e2] the page is
    skipped with the one record [(name, page, "e / e2")] and no chunk. When
    pdfplumber is not available the page is skipped at once with the record
    [(name, page, e)], and no fallback attempt is made. *)
Theorem C4_tiered_page_extraction d doc g st page_no e :
  primary_attempt d doc page_no = Raise e ->
  last (page_trace d doc page_no) PrimaryAttempt =
    state_of_outcome (extract_page d doc page_no) /\
  (HAS_PLUMBER = true ->
     page_trace d doc page_no =
       [PrimaryAttempt; FallbackAttempt e; state_of_outcome (extract_page d doc page_no)] /\
     List.length (filter is_fallback (page_trace d doc page_no)) = 1 /\
     (forall text tables, fallback_attempt d page_no = Ok (text, tables) ->
        extract_page d doc page_no = Extracted text tables) /\
     (forall e2, fallback_attempt d page_no = Raise e2 ->
        let r := (path_name d, (Z.of_nat page_no + 1)%Z, (e ++ " / " ++ e2)%string) in
        extract_page d doc page_no = SkippedPage r /\
        process_page d doc g st page_no =
          {| chunks := chunks st;
             skipped_pages := skipped_pages st ++ [r];
             uuid_calls := uuid_calls st |})) /\
  (HAS_PLUMBER = false ->
     let r := (path_name d, (Z.of_nat page_no + 1)%Z, e) in
     page_trace d doc page_no = [PrimaryAttempt; Skipped r] /\
     List.length (filter is_fallback (page_trace d doc page_no)) = 0 /\
     extract_page d doc page_no = SkippedPage r /\
     process_page d doc g st page_no =
       {| chunks := chunks st;
          skipped_pages := skipped_pages st ++ [r];
          uuid_calls := uuid_calls st |}).
Proof.
  intros Hprim. split; [apply page_trace_last|]. split.
  - intros Hpl.
    assert (Htrace : page_trace d doc page_no =
              [PrimaryAttempt; FallbackAttempt e;
               state_of_outcome (extract_page d doc page_no)]).
    { unfold page_trace, extract_page. cbn [page_run is_final page_step].
      rewrite Hprim, Hpl. cbn [is_final page_step].
      destruct (fallback_attempt d page_no) as [[text tables]|e2]; reflexivity. }
    split; [exact Htrace|]. split.
    + rewrite Htrace. cbn [filter is_fallback].
      destruct (extract_page d doc page_no); reflexivity.
    + split.
      * intros text tables Hfb. unfold extract_page. now rewrite Hprim, Hpl, Hfb.
      * intros e2 Hfb r.
        assert (Hex : extract_page d doc page_no = SkippedPage r)
          by (unfold extract_page; now rewrite Hprim, Hpl, Hfb).
        split; [exact Hex|]. now apply process_page_skipped.
  - intros Hpl r.
    assert (Hex : extract_page d doc page_no = SkippedPage r)
      by (unfold extract_page; now rewrite Hprim, Hpl).
    split; [|split; [|split]].
    + unfold page_trace. cbn [page_run is_final page_step]. now rewrite Hprim, Hpl.
    + unfold page_trace. cbn [page_run is_final page_step]. now rewrite Hprim, Hpl.
    + exact Hex.
    + now apply process_page_skipped.
Qed.


(** ** Facts about the aggregator *)

Lemma fold_collect completed : forall st,
  fold_left collect completed st =
  {| all_chunks := all_chunks st ++ flat_map future_chunks completed;
     all_skipped_pages := all_skipped_pages st ++ flat_map future_skipped_pages completed;
     skipped_pdfs := skipped_pdfs st ++ flat_map future_failure completed |}.
Proof.
  induction completed as [|[p r] completed IH]; intros st.
  - cbn. rewrite !app_nil_r. now destruct st.
  - cbn [fold_left flat_map]. rewrite IH. unfold collect, future_chunks,
      future_skipped_pages, future_failure. cbn [fst snd].
    destruct r as [[cs sp]|e]; cbn [all_chunks all_skipped_pages skipped_pdfs];
      rewrite ?app_assoc, ?app_nil_r; reflexivity.
Qed.

Lemma aggregate_by_future completed :
  aggregate completed =
  {| all_chunks := flat_map future_chunks completed;
     all_skipped_pages := flat_map future_skipped_pages completed;
     skipped_pdfs := flat_map future_failure completed |}.
Proof. unfold aggregate. now rewrite fold_collect. Qed.


Lemma run_all_chunks gens completed :
  all_chunks (aggregate (run_tasks gens completed)) =
  flat_map (fun p => future_chunks (p, process_pdf p (gens p))) completed.
Proof.
  rewrite aggregate_by_future. cbn [all_chunks]. unfold run_tasks.
  induction completed as [|p completed IH]; [reflexivity|].
  cbn [map flat_map]. now rewrite IH.
Qed.

Lemma filter_andb {A} (f g : A -> bool) (l : list A) :
  filter (fun x => f x && g x) l = filter g (filter f l).
Proof.
  induction l as [|x l IH]; [reflexivity|].
  cbn [filter]. destruct (f x); cbn [andb filter]; rewrite IH; reflexivity.
Qed.

Lemma page_contrib_doc d doc page_no id c :
  In c (page_contrib d doc page_no id) ->
  dict_get "doc_path" c = Some (JStr (path_str d)).
Proof.
  unfold page_contrib. destruct (extract_page d doc page_no) as [text tables|r]; [|intros []].
  unfold page_chunks. intros Hc. apply in_app_or in Hc. destruct Hc as [Hc|Hc].
  - unfold text_chunks in Hc. destruct (sentences text) as [|s ss].
    + destruct Hc as [<-|[]]. reflexivity.
    + apply in_map_iff in Hc. destruct Hc as ([i win] & <- & _). reflexivity.
  - unfold table_chunks in Hc. apply in_map_iff in Hc.
    destruct Hc as ([ti tbl] & <- & _). reflexivity.
Qed.

(** The chunks of a task all carry the path of its document. *)
Lemma filter_in_doc_future path p g :
  filter (in_doc path) (future_chunks (p, process_pdf p g)) =
  if String.eqb (path_str p) path then future_chunks (p, process_pdf p g) else [].
Proof.
  unfold future_chunks. cbn [snd].
  destruct (process_pdf p g) as [[cs sp]|e] eqn:Hrun;
    [|now destruct (String.eqb (path_str p) path)].
  destruct (process_pdf_opened p g cs sp Hrun) as [doc Hopen].
  destruct (process_pdf_by_page p g doc Hopen) as (cs' & sp' & Hrun' & _ & Hmem).
  rewrite Hrun in Hrun'. inversion Hrun'; subst cs' sp'. clear Hrun'.
  assert (Hdoc : forall c, In c cs -> in_doc path c = String.eqb (path_str p) path).
  { intros c Hc. destruct (Hmem c Hc) as (q & id & _ & Hq).
    unfold in_doc. now rewrite (page_contrib_doc p doc q id c Hq). }
  destruct (String.eqb (path_str p) path).
  - apply filter_all, forallb_forall. exact Hdoc.
  - apply filter_none, forallb_forall. intros c Hc. now rewrite (Hdoc c Hc).
Qed.

(** With one task per path, the chunks of a document in the merged list are
    the chunks its task returned, in the same order. *)
Lemma filter_in_doc_run gens completed d :
  NoDup (map path_str completed) ->
  In d completed ->
  filter (in_doc (path_str d))
         (flat_map (fun p => future_chunks (p, process_pdf p (gens p))) completed)
  = future_chunks (d, process_pdf d (gens d)).
Proof.
  assert (Hnone : forall l, ~ In (path_str d) (map path_str l) ->
            filter (in_doc (path_str d))
                   (flat_map (fun p => future_chunks (p, process_pdf p (gens p))) l) = []).
  { induction l as [|p l IH]; intros Hout; [reflexivity|].
    cbn [flat_map]. rewrite filter_app, filter_in_doc_future.
    destruct (String.eqb_spec (path_str p) (path_str d)) as [Heq|Hne].
    - exfalso. apply Hout. left. exact Heq.
    - cbn [app]. apply IH. intros Hin. apply Hout. now right. }
  induction completed as [|p completed IH]; intros Hnd Hin; [destruct Hin|].
  cbn [map] in Hnd. inversion Hnd as [|? ? Hp Hnd']; subst.
  cbn [flat_map]. rewrite filter_app, filter_in_doc_future.
  destruct (String.eqb_spec (path_str p) (path_str d)) as [Heq|Hne].
  - assert (p = d) as ->.
    { destruct Hin as [Hpd|Hin]; [exact Hpd|].
      exfalso. apply Hp. rewrite Heq. now apply in_map. }
    rewrite Hnone by assumption. apply app_nil_r.
  - cbn [app]. apply IH; [assumption|].
    destruct Hin as [->|Hin]; [congruence|assumption].
Qed.

(** C8: in the merged chunk list, the chunks of one page of one document
    are its text chunks followed by its table chunks; the k-th table chunk
    (k = 0, 1, ...) has [elem_type = "table"], [table_no = k] and the k-th
    recovered table as its text, so [table_no] increases strictly in
    discovery order. *)
Theorem C8_text_chunks_precede_table_chunks gens completed d doc page_no :
  NoDup (map path_str completed) ->
  In d completed ->
  open_pdf d = Ok doc ->
  page_no < page_count doc ->
  let out := all_chunks (aggregate (run_tasks gens completed)) in
  exists texts tbls,
    filter (fun c => in_doc (path_str d) c && on_page (Z.of_nat page_no + 1) c) out
      = texts ++ tbls /\
    forallb is_text texts = true /\
    forallb (fun c => negb (is_table c)) texts = true /\
    (forall k c, nth_error tbls k = Some c ->
       chunk_elem_type c = Some (JStr "table") /\
       is_text c = false /\
       dict_get "table_no" c = Some (JInt (Z.of_nat k)) /\
       forall text tables, extract_page d doc page_no = Extracted text tables ->
         exists tbl, nth_error tables k = Some tbl /\ chunk_text c = Some (JStr tbl)) /\
    (forall text tables, extract_page d doc page_no = Extracted text tables ->
       List.length tbls = List.length tables) /\
    (forall j k cj ck nj nk,
       j < k -> nth_error tbls j = Some cj -> nth_error tbls k = Some ck ->
       dict_get "table_no" cj = Some (JInt nj) ->
       dict_get "table_no" ck = Some (JInt nk) -> (nj < nk)%Z).
Proof.
  intros Hnd Hin Hopen Hlt out. subst out.
  rewrite run_all_chunks, filter_andb, filter_in_doc_run by assumption.
  destruct (process_pdf_by_page d (gens d) doc Hopen) as (cs & sp & Hrun & _).
  unfold future_chunks. cbn [snd]. rewrite Hrun.
  exact (page_output_texts_then_tables d (gens d) doc cs sp page_no Hopen Hrun Hlt).
Qed.


(** ** Facts about re-running *)








End Properties.

(** ** Worked examples *)

(** The sliding window on the seven-sentence page. *)
Lemma C1_seven_sentences :
  sentences (seg := stub_segmenter) seven_sentences <> [] /\
  map sent_range
      (filter is_text
         (page_chunks (seg := stub_segmenter) pdf_two_pages 0 "id" seven_sentences []))
  = [ (Some (JInt 1), Some (JInt 5));
      (Some (JInt 4), Some (JInt 7));
      (Some (JInt 7), Some (JInt 7)) ].
Proof.
  assert (H : sentences (seg := stub_segmenter) seven_sentences <> [])
    by (vm_compute; discriminate).
  split; [exact H|].
  destruct (C1_sliding_window_chunks (caps := caps_none) (seg := stub_segmenter)
              pdf_two_pages 0 "id" seven_sentences [] H)
    as (_ & _ & _ & _ & _ & _ & _ & _ & H7).
  exact (H7 eq_refl).
Defined.


(** Page 2 of the two-page document, without and with pdfplumber. *)
Lemma C4_damaged_page :
  let doc := doc_of_pages [text_page seven_sentences; Raise "page 2 is damaged"] in
  primary_attempt (caps := caps_none) pdf_two_pages doc 1 = Raise "page 2 is damaged" /\
  page_trace (caps := caps_none) pdf_two_pages doc 1 =
    [PrimaryAttempt; Skipped ("a.pdf", 2%Z, "page 2 is damaged")] /\
  primary_attempt (caps := caps_plumber) pdf_two_pages doc 1 = Raise "page 2 is damaged" /\
  fallback_attempt (caps := caps_plumber) pdf_two_pages 1 = Raise "pdfplumber: cannot open" /\
  extract_page (caps := caps_plumber) pdf_two_pages doc 1 =
    SkippedPage ("a.pdf", 2%Z, "page 2 is damaged / pdfplumber: cannot open").
Proof.
  intros doc.
  pose (st := {| chunks := []; skipped_pages := []; uuid_calls := 0 |}).
  split; [reflexivity|]. split.
  - apply (C4_tiered_page_extraction (caps := caps_none) (seg := stub_segmenter)
             pdf_two_pages doc uuid_zero st 1 "page 2 is damaged" eq_refl).
    reflexivity.
  - split; [reflexivity|]. split; [reflexivity|].
    apply (C4_tiered_page_extraction (caps := caps_plumber) (seg := stub_segmenter)
             pdf_two_pages doc uuid_zero st 1 "page 2 is damaged" eq_refl);
      reflexivity.
Defined.



(** C6 at its failing input: the primary engine cannot load the page,
    pdfplumber reads its text, and the error raised while extracting its
    tables skips the page and is recorded. On the primary path the same kind
    of error (camelot raising) is dropped and the page keeps its chunk. *)
Theorem C6_table_failure_on_fallback_skips_the_page :
  let doc := doc_of_pages [Raise "cannot load page"] in
  primary_attempt (caps := caps_all) pdf_plumber_table_fails doc 0
    = Raise "cannot load page" /\
  (exists pg,
     pdfplumber_open pdf_plumber_table_fails 0 = Ok [pg] /\
     extract_text pg = Ok (Some "Fallback text.") /\
     extract_tables pg = Raise "table finder failed" /\
     images pg = Ok []) /\
  fallback_attempt (caps := caps_all) pdf_plumber_table_fails 0
    = Raise "table finder failed" /\
  process_pdf (caps := caps_all) (seg := stub_segmenter) pdf_plumber_table_fails uuid_zero
    = Ok ([], [("t.pdf", 1%Z, "cannot load page / table finder failed")]) /\
  camelot_read_pdf pdf_b 0 = Raise "camelot: no tables" /\
  (exists c,
     process_pdf (caps := caps_all) (seg := stub_segmenter) pdf_b uuid_zero
       = Ok ([c], []) /\
     chunk_text c = Some (JStr "Second.")).
Proof.
  intros doc. split; [reflexivity|]. split.
  - eexists. repeat split.
  - split; [reflexivity|]. split; [reflexivity|]. split; [reflexivity|].
    eexists. split; reflexivity.
Qed.

(** The claim C7 fails on the page with tables: its first table chunk has
    no [table_no] inside [loc]. *)
Lemma C7_table_chunk_loc_has_no_table_no :
  exists cs sp c,
    process_pdf (caps := caps_all) (seg := stub_segmenter) pdf_one_table uuid_zero
      = Ok (cs, sp) /\
    In c cs /\
    is_table c = true /\
    chunk_loc c = [("page", JInt 1)] /\
    dict_get "table_no" (chunk_loc c) = None.
Proof.
  eexists. eexists. eexists. split; [reflexivity|].
  split; [right; left; reflexivity|]. repeat split.
Qed.

(** The first table chunk of the page with tables. *)
Lemma C7_first_table_chunk :
  let doc := doc_of_pages [text_page "Report."] in
  let st := process_pages (caps := caps_all) (seg := stub_segmenter)
              pdf_one_table doc uuid_zero in
  let c := table_chunk (base_chunk pdf_one_table 0 (uuid_zero 0) ["a,b"; "c,d"]) 0 "a,b" in
  process_pdf (caps := caps_all) (seg := stub_segmenter) pdf_one_table uuid_zero
    = Ok (chunks st, skipped_pages st) /\
  In c (chunks st) /\
  is_table c = true /\
  exists page_no ti,
    chunk_loc c = [("page", JInt (Z.of_nat page_no + 1))] /\
    dict_get "table_no" (chunk_loc c) = None /\
    dict_get "table_no" c = Some (JInt (Z.of_nat ti)).
Proof.
  intros doc st c.
  assert (Hrun : process_pdf (caps := caps_all) (seg := stub_segmenter)
                   pdf_one_table uuid_zero = Ok (chunks st, skipped_pages st))
    by reflexivity.
  assert (Hin : In c (chunks st)) by (right; left; reflexivity).
  split; [exact Hrun|]. split; [exact Hin|]. split; [reflexivity|].
  apply (C7_table_no_is_a_top_level_field (caps := caps_all) (seg := stub_segmenter)
           pdf_one_table uuid_zero (chunks st) (skipped_pages st) c Hrun Hin).
  reflexivity.
Defined.

(** The chunks of the page with tables in a run of two documents: one text
    chunk, then two table chunks. *)
Lemma C8_page_with_tables :
  let doc := doc_of_pages [text_page "Report."] in
  let out := all_chunks (aggregate (run_tasks (caps := caps_all) (seg := stub_segmenter)
                                      (fun _ => uuid_zero) [pdf_b; pdf_one_table])) in
  NoDup (map path_str [pdf_b; pdf_one_table]) /\
  In pdf_one_table [pdf_b; pdf_one_table] /\
  open_pdf (caps := caps_all) pdf_one_table = Ok doc /\
  0 < page_count doc /\
  exists texts tbls,
    filter (fun c => in_doc "raw/pdf/r.pdf" c && on_page 1 c) out = texts ++ tbls /\
    forallb is_text texts = true /\
    List.length tbls = 2.
Proof.
  intros doc out.
  assert (Hnd : NoDup (map path_str [pdf_b; pdf_one_table])).
  { cbn [map]. constructor.
    - intros [H|[]]. discriminate H.
    - constructor; [intros []|constructor]. }
  assert (Hin : In pdf_one_table [pdf_b; pdf_one_table]) by (right; left; reflexivity).
  split; [exact Hnd|]. split; [exact Hin|]. split; [reflexivity|]. split; [cbn; lia|].
  destruct (C8_text_chunks_precede_table_chunks
              (caps := caps_all) (seg := stub_segmenter)
              (fun _ => uuid_zero) [pdf_b; pdf_one_table] pdf_one_table doc 0
              Hnd Hin eq_refl (Nat.lt_0_succ 0))
    as (texts & tbls & Hsplit & Htexts & _ & _ & Hlen & _).
  exists texts, tbls. split; [exact Hsplit|]. split; [exact Htexts|].
  exact (Hlen "Report." ["a,b"; "c,d"] eq_refl).
Defined.




(** ** Further facts about process_pdf *)

Lemma StronglySorted_app {A} (R : A -> A -> Prop) (l1 l2 : list A) :
  StronglySorted R l1 -> StronglySorted R l2 ->
  (forall x y, In x l1 -> In y l2 -> R x y) ->
  StronglySorted R (l1 ++ l2).
Proof.
  intros H1 H2 Hx. induction H1 as [|a l1 H1 IH Ha]; [exact H2|].
  cbn [app]. constructor.
  - apply IH. intros x y Hin. apply Hx. now right.
  - apply Forall_app. split; [exact Ha|].
    apply Forall_forall. intros y Hy. apply Hx; [now left|exact Hy].
Qed.

Lemma StronglySorted_le_const (v : Z) (l : list Z) :
  (forall x, In x l -> x = v) -> StronglySorted Z.le l.
Proof.
  induction l as [|a l IH]; intros Hall; constructor.
  - apply IH. intros x Hx. apply Hall. now right.
  - apply Forall_forall. intros y Hy.
    rewrite (Hall a (or_introl eq_refl)), (Hall y (or_intror Hy)). lia.
Qed.

Lemma filter_map_length {A B} (f : B -> bool) (g : A -> B) (l : list A) :
  List.length (filter f (map g l)) = List.length (filter (fun x => f (g x)) l).
Proof.
  induction l as [|x l IH]; [reflexivity|].
  cbn [map filter]. destruct (f (g x)); cbn [List.length]; now rewrite IH.
Qed.

Section MoreProperties.

Context {caps : Capabilities} {seg : Segmenter}.


Lemma process_page_calls d doc g st page_no :
  chunks (process_page d doc g st page_no) =
    chunks st ++ page_contrib d doc page_no (g (uuid_calls st)) /\
  uuid_calls (process_page d doc g st page_no) =
    (if is_extracted d doc page_no then S (uuid_calls st) else uuid_calls st) /\
  List.length (skipped_pages (process_page d doc g st page_no)) =
    (if is_extracted d doc page_no then List.length (skipped_pages st)
     else S (List.length (skipped_pages st))).
Proof.
  unfold process_page, page_contrib, is_extracted.
  destruct (extract_page d doc page_no) as [text tables|r];
    cbn [chunks skipped_pages uuid_calls]; rewrite ?app_nil_r, ?length_app;
    cbn [List.length]; repeat split; lia.
Qed.

(** The page loop with its uuid4 calls counted. *)
Lemma fold_process_page_calls d doc g ps : forall st,
  chunks (fold_left (process_page d doc g) ps st) =
    chunks st ++ contribs d doc g ps (uuid_calls st) /\
  uuid_calls (fold_left (process_page d doc g) ps st) =
    uuid_calls st + List.length (filter (is_extracted d doc) ps) /\
  List.length (skipped_pages (fold_left (process_page d doc g) ps st))
  + List.length (filter (is_extracted d doc) ps) =
    List.length (skipped_pages st) + List.length ps.
Proof.
  induction ps as [|p ps IH]; intros st.
  - cbn. rewrite app_nil_r. repeat split; lia.
  - cbn [fold_left contribs filter].
    destruct (IH (process_page d doc g st p)) as (Hc & Hu & Hs).
    destruct (process_page_calls d doc g st p) as (Hc1 & Hu1 & Hs1).
    rewrite Hc, Hu, Hc1, Hu1. rewrite Hs1 in Hs.
    destruct (is_extracted d doc p); cbn [List.length];
      rewrite <- app_assoc; repeat split; lia.
Qed.

Lemma contribs_In d doc g c : forall len a n,
  In c (contribs d doc g (seq a len) n) ->
  exists q, a <= q < a + len /\
    In c (page_contrib d doc q
            (g (n + List.length (filter (is_extracted d doc) (seq a (q - a)))))).
Proof.
  induction len as [|len IH]; intros a n Hin; [destruct Hin|].
  cbn [seq contribs] in Hin. apply in_app_or in Hin. destruct Hin as [Hin|Hin].
  - exists a. split; [lia|]. rewrite Nat.sub_diag. cbn [seq filter List.length].
    now rewrite Nat.add_0_r.
  - destruct (IH _ _ Hin) as (q & Hq & Hc). exists q. split; [lia|].
    replace (q - a) with (S (q - S a)) by lia. cbn [seq filter].
    destruct (is_extracted d doc a); cbn [List.length].
    + now rewrite Nat.add_succ_r.
    + exact Hc.
Qed.

Lemma page_contrib_chunk_id d doc page_no id c :
  In c (page_contrib d doc page_no id) -> chunk_id_of c = Some (JStr id).
Proof.
  unfold page_contrib. destruct (extract_page d doc page_no) as [text tables|r]; [|intros []].
  unfold page_chunks. intros Hc. apply in_app_or in Hc. destruct Hc as [Hc|Hc].
  - unfold text_chunks in Hc. destruct (sentences text) as [|s ss].
    + destruct Hc as [<-|[]]. reflexivity.
    + apply in_map_iff in Hc. destruct Hc as ([i win] & <- & _). reflexivity.
  - unfold table_chunks in Hc. apply in_map_iff in Hc.
    destruct Hc as ([ti tbl] & <- & _). reflexivity.
Qed.

Lemma page_contrib_extracted d doc page_no id c :
  In c (page_contrib d doc page_no id) -> is_extracted d doc page_no = true.
Proof.
  unfold page_contrib, is_extracted.
  destruct (extract_page d doc page_no); [reflexivity|intros []].
Qed.

Lemma extracted_before_succ d doc q :
  extracted_before d doc (S q) =
  extracted_before d doc q + (if is_extracted d doc q then 1 else 0).
Proof.
  unfold extracted_before. rewrite seq_S, filter_app, length_app. cbn [Nat.add filter].
  destruct (is_extracted d doc q); reflexivity.
Qed.

Lemma extracted_before_lt d doc q1 q2 :
  q1 < q2 -> is_extracted d doc q1 = true ->
  extracted_before d doc q1 < extracted_before d doc q2.
Proof.
  intros Hlt Hex. induction q2 as [|q2 IH]; [lia|].
  rewrite extracted_before_succ.
  destruct (Nat.eq_dec q1 q2) as [->|Hne].
  - rewrite Hex. lia.
  - assert (extracted_before d doc q1 < extracted_before d doc q2) by (apply IH; lia).
    lia.
Qed.

(** Every chunk of the output lies on a page that reached the chunker and
    carries the uuid drawn for that page. *)
Lemma process_pdf_chunk_origin d g doc cs sp c :
  open_pdf d = Ok doc ->
  process_pdf d g = Ok (cs, sp) ->
  In c cs ->
  exists q,
    q < page_count doc /\
    is_extracted d doc q = true /\
    chunk_page c = Some (JInt (Z.of_nat q + 1)) /\
    chunk_id_of c = Some (JStr (g (extracted_before d doc q))) /\
    In c (page_contrib d doc q (g (extracted_before d doc q))).
Proof.
  intros Hopen Hrun Hin. unfold process_pdf in Hrun. rewrite Hopen in Hrun.
  cbn [bind] in Hrun. inversion Hrun; subst cs sp. clear Hrun.
  unfold process_pages in Hin.
  destruct (fold_process_page_calls d doc g (seq 0 (page_count doc))
              {| chunks := []; skipped_pages := []; uuid_calls := 0 |}) as (Hc & _).
  rewrite Hc in Hin. cbn [chunks uuid_calls app] in Hin.
  apply contribs_In in Hin. destruct Hin as (q & Hq & Hcq).
  rewrite Nat.sub_0_r in Hcq. cbn [Nat.add] in Hcq. fold (extracted_before d doc q) in Hcq.
  exists q. split; [lia|]. split; [eapply page_contrib_extracted; eassumption|].
  split; [eapply page_contrib_page; eassumption|].
  split; [eapply page_contrib_chunk_id; eassumption|exact Hcq].
Qed.

(** X2: [chunk_id] names the page, not the chunk: two chunks of a document
    on the same page carry the same [chunk_id], and when uuid4 never repeats
    two chunks with the same [chunk_id] lie on the same page. *)
Theorem chunk_id_is_shared_by_the_chunks_of_a_page d g cs sp c1 c2 :
  process_pdf d g = Ok (cs, sp) ->
  In c1 cs -> In c2 cs ->
  (chunk_page c1 = chunk_page c2 -> chunk_id_of c1 = chunk_id_of c2) /\
  ((forall m n, g m = g n -> m = n) ->
   chunk_id_of c1 = chunk_id_of c2 -> chunk_page c1 = chunk_page c2).
Proof.
  intros Hrun H1 H2.
  destruct (process_pdf_opened d g cs sp Hrun) as [doc Hopen].
  destruct (process_pdf_chunk_origin d g doc cs sp c1 Hopen Hrun H1)
    as (q1 & _ & Hex1 & Hp1 & Hid1 & _).
  destruct (process_pdf_chunk_origin d g doc cs sp c2 Hopen Hrun H2)
    as (q2 & _ & Hex2 & Hp2 & Hid2 & _).
  rewrite Hp1, Hp2, Hid1, Hid2. split.
  - intros Heq. inversion Heq. assert (q1 = q2) by lia. now subst.
  - intros Hinj Heq. inversion Heq as [Hg]. apply Hinj in Hg.
    destruct (Nat.lt_trichotomy q1 q2) as [Hlt|[->|Hgt]]; [|reflexivity|].
    + pose proof (extracted_before_lt d doc q1 q2 Hlt Hex1). lia.
    + pose proof (extracted_before_lt d doc q2 q1 Hgt Hex2). lia.
Qed.


Lemma table_chunks_length base tables :
  List.length (table_chunks base tables) = List.length tables.
Proof.
  unfold table_chunks. rewrite length_map. generalize 0.
  induction tables as [|t ts IH]; intros n; [reflexivity|].
  cbn [enumerate_from List.length]. now rewrite IH.
Qed.

(** X4: a page whose text has no sentence (empty, or only white space) gets
    exactly one text chunk; it holds the raw page text as it is, and its
    [loc] has the page number and no sentence range. The page's table chunks
    follow it. *)
Theorem page_without_sentences_gets_one_raw_chunk d g doc cs sp page_no text tables :
  open_pdf d = Ok doc ->
  process_pdf d g = Ok (cs, sp) ->
  page_no < page_count doc ->
  extract_page d doc page_no = Extracted text tables ->
  sentences text = [] ->
  exists c,
    filter is_text (filter (on_page (Z.of_nat page_no + 1)) cs) = [c] /\
    chunk_text c = Some (JStr text) /\
    chunk_loc c = [("page", JInt (Z.of_nat page_no + 1))] /\
    sent_range c = (None, None) /\
    List.length (filter (on_page (Z.of_nat page_no + 1)) cs) = 1 + List.length tables.
Proof.
  intros Hopen Hrun Hlt Hex Hnone.
  destruct (process_pdf_page_output d g doc cs sp page_no text tables
              Hopen Hrun Hlt Hex) as [id Hout].
  rewrite Hout, page_chunks_text. unfold page_chunks, text_chunks. rewrite Hnone.
  eexists. split; [reflexivity|]. split; [reflexivity|]. split; [reflexivity|].
  split; [reflexivity|].
  rewrite length_app, table_chunks_length. reflexivity.
Qed.

Lemma primary_tables_off d doc page_no text tables :
  HAS_TABLES = false ->
  primary_attempt d doc page_no = Ok (text, tables) -> tables = [].
Proof.
  intros Hoff. unfold primary_attempt, camelot_tables. rewrite Hoff.
  destruct (load_page doc page_no) as [page|e]; [|discriminate]. cbn [bind].
  destruct (get_text page) as [t|e]; [|discriminate]. cbn [bind].
  destruct HAS_OCR.
  - destruct (get_images page) as [imgs|e]; [|discriminate]. cbn [bind].
    destruct (ocr_overlay imgs t) as [t'|e]; [|discriminate]. cbn [bind].
    intros H. now inversion H.
  - cbn [bind]. intros H. now inversion H.
Qed.

Lemma fallback_tables_off d page_no text tables :
  HAS_TABLES = false ->
  fallback_attempt d page_no = Ok (text, tables) -> tables = [].
Proof.
  intros Hoff. unfold fallback_attempt. rewrite Hoff.
  destruct (pdfplumber_open d page_no) as [pages|e]; [|discriminate]. cbn [bind].
  destruct (nth_error pages page_no) as [pg|]; [|discriminate]. cbn [bind].
  destruct (extract_text pg) as [t|e]; [|discriminate]. cbn [bind].
  destruct HAS_OCR.
  - destruct (images pg) as [imgs|e]; [|discriminate]. cbn [bind].
    destruct (plumber_ocr imgs (or_empty t)) as [t'|e]; [|discriminate]. cbn [bind].
    intros H. now inversion H.
  - cbn [bind]. intros H. now inversion H.
Qed.

Lemma extract_page_tables_off d doc page_no text tables :
  HAS_TABLES = false ->
  extract_page d doc page_no = Extracted text tables -> tables = [].
Proof.
  intros Hoff. unfold extract_page.
  destruct (primary_attempt d doc page_no) as [[t tb]|e] eqn:Hp.
  - intros H. inversion H; subst. eapply primary_tables_off; eassumption.
  - destruct HAS_PLUMBER; [|discriminate].
    destruct (fallback_attempt d page_no) as [[t tb]|e2] eqn:Hf; [|discriminate].
    intros H. inversion H; subst. eapply fallback_tables_off; eassumption.
Qed.

(** The chunks a page contributes all carry the page's table list. *)
Lemma page_chunks_tables_field d page_no id text tables c :
  In c (page_chunks d page_no id text tables) ->
  dict_get "tables" c = Some (JList (map JStr tables)) /\
  (is_table c = true ->
   exists k tbl,
     dict_get "table_no" c = Some (JInt (Z.of_nat k)) /\
     nth_error tables k = Some tbl /\
     chunk_text c = Some (JStr tbl)).
Proof.
  unfold page_chunks. intros Hc. apply in_app_or in Hc. destruct Hc as [Hc|Hc].
  - unfold text_chunks in Hc. destruct (sentences text) as [|s ss].
    + destruct Hc as [<-|[]]. split; [reflexivity|discriminate].
    + apply in_map_iff in Hc. destruct Hc as ([i win] & <- & _).
      split; [reflexivity|discriminate].
  - apply In_nth_error in Hc. destruct Hc as [k Hk].
    apply table_chunks_nth in Hk. destruct Hk as (tbl & Htbl & ->).
    split; [reflexivity|]. intros _. exists k, tbl. repeat split. exact Htbl.
Qed.

(** X5: without the table capability the output has no table chunk at all,
    on either extraction path, and every chunk has an empty [tables] list. *)
Theorem no_table_chunks_without_table_capability d g cs sp c :
  HAS_TABLES = false ->
  process_pdf d g = Ok (cs, sp) ->
  In c cs ->
  is_table c = false /\ is_text c = true /\ dict_get "tables" c = Some (JList []).
Proof.
  intros Hoff Hrun Hin.
  destruct (process_pdf_opened d g cs sp Hrun) as [doc Hopen].
  destruct (process_pdf_chunk_origin d g doc cs sp c Hopen Hrun Hin)
    as (q & _ & _ & _ & _ & Hc).
  unfold page_contrib in Hc.
  destruct (extract_page d doc q) as [text tables|r] eqn:Hex; [|destruct Hc].
  assert (tables = []) as -> by (eapply extract_page_tables_off; eassumption).
  unfold page_chunks in Hc. cbn [table_chunks enumerate_from map] in Hc.
  rewrite app_nil_r in Hc. unfold text_chunks in Hc.
  destruct (sentences text) as [|s ss].
  - destruct Hc as [<-|[]]. repeat split.
  - apply in_map_iff in Hc. destruct Hc as ([i win] & <- & _). repeat split.
Qed.

(** X6: every chunk, text or table, carries in [tables] the complete list
    of the tables recovered on its page, and the text of a table chunk is
    the entry of that list at the chunk's own [table_no]. *)
Theorem every_chunk_carries_the_tables_of_its_page d g doc cs sp c :
  open_pdf d = Ok doc ->
  process_pdf d g = Ok (cs, sp) ->
  In c cs ->
  exists page_no text tables,
    page_no < page_count doc /\
    chunk_page c = Some (JInt (Z.of_nat page_no + 1)) /\
    extract_page d doc page_no = Extracted text tables /\
    dict_get "tables" c = Some (JList (map JStr tables)) /\
    (is_table c = true ->
     exists k tbl,
       dict_get "table_no" c = Some (JInt (Z.of_nat k)) /\
       nth_error tables k = Some tbl /\
       chunk_text c = Some (JStr tbl)).
Proof.
  intros Hopen Hrun Hin.
  destruct (process_pdf_chunk_origin d g doc cs sp c Hopen Hrun Hin)
    as (q & Hq & _ & Hp & _ & Hc).
  unfold page_contrib in Hc.
  destruct (extract_page d doc q) as [text tables|r] eqn:Hex; [|destruct Hc].
  exists q, text, tables. split; [exact Hq|]. split; [exact Hp|].
  split; [exact Hex|]. eapply page_chunks_tables_field; eassumption.
Qed.

Lemma concat_pages_sorted d doc : forall len a ids,
  let cs := List.concat (map (fun pi => page_contrib d doc (fst pi) (snd pi))
                             (combine (seq a len) ids)) in
  StronglySorted Z.le (map page_of cs) /\
  Forall (fun c => chunk_page c = Some (JInt (page_of c)) /\
                   (Z.of_nat a + 1 <= page_of c <= Z.of_nat a + Z.of_nat len)%Z) cs.
Proof.
  induction len as [|len IH]; intros a ids; cbv zeta.
  - cbn. split; constructor.
  - destruct ids as [|id ids]; [cbn; split; constructor|].
    cbn [seq combine map List.concat fst snd].
    destruct (IH (S a) ids) as [Hs Hb]. cbv zeta in Hs, Hb.
    assert (Hblock : forall c, In c (page_contrib d doc a id) ->
                chunk_page c = Some (JInt (page_of c)) /\ page_of c = (Z.of_nat a + 1)%Z).
    { intros c Hc. apply page_contrib_page in Hc. unfold page_of. rewrite Hc. auto. }
    split.
    + rewrite map_app. apply StronglySorted_app.
      * apply (StronglySorted_le_const (Z.of_nat a + 1)).
        intros x Hx. apply in_map_iff in Hx. destruct Hx as (c & <- & Hc).
        now apply Hblock.
      * exact Hs.
      * intros x y Hx Hy. apply in_map_iff in Hx. destruct Hx as (c & <- & Hc).
        apply in_map_iff in Hy. destruct Hy as (c' & <- & Hc').
        rewrite Forall_forall in Hb. destruct (Hb c' Hc') as [_ Hb'].
        destruct (Hblock c Hc) as [_ Hv]. rewrite Hv. lia.
    + apply Forall_app. split.
      * apply Forall_forall. intros c Hc. destruct (Hblock c Hc) as [Hp Hv].
        split; [exact Hp | rewrite Hv; lia].
      * eapply Forall_impl; [|exact Hb]. cbv beta. intros c [Hp Hr]. split; [exact Hp|lia].
Qed.

Lemma flat_map_skips_sorted d doc : forall len a,
  let sp := flat_map (page_skips d doc) (seq a len) in
  StronglySorted Z.lt (map record_page sp) /\
  Forall (fun r => fst (fst r) = path_name d /\
                   (Z.of_nat a + 1 <= record_page r <= Z.of_nat a + Z.of_nat len)%Z) sp.
Proof.
  induction len as [|len IH]; intros a; cbv zeta.
  - cbn. split; constructor.
  - cbn [seq flat_map]. destruct (IH (S a)) as [Hs Hb]. cbv zeta in Hs, Hb.
    assert (Hblock : forall r, In r (page_skips d doc a) ->
                fst (fst r) = path_name d /\ record_page r = (Z.of_nat a + 1)%Z).
    { intros r Hr. split; [|now apply (page_skips_page d doc a)].
      unfold page_skips, extract_page in Hr.
      destruct (primary_attempt d doc a) as [[t tb]|e]; [destruct Hr|].
      destruct HAS_PLUMBER.
      - destruct (fallback_attempt d a) as [[t tb]|e2]; [destruct Hr|].
        destruct Hr as [<-|[]]. reflexivity.
      - destruct Hr as [<-|[]]. reflexivity. }
    assert (Hone : page_skips d doc a = [] \/ exists r, page_skips d doc a = [r]).
    { unfold page_skips. destruct (extract_page d doc a); eauto. }
    split.
    + rewrite map_app. apply StronglySorted_app.
      * destruct Hone as [->|[r ->]]; cbn; repeat constructor.
      * exact Hs.
      * intros x y Hx Hy. apply in_map_iff in Hx. destruct Hx as (r & <- & Hr).
        apply in_map_iff in Hy. destruct Hy as (r' & <- & Hr').
        rewrite Forall_forall in Hb. destruct (Hb r' Hr') as [_ Hb'].
        destruct (Hblock r Hr) as [_ Hv]. rewrite Hv. lia.
    + apply Forall_app. split.
      * apply Forall_forall. intros r Hr. destruct (Hblock r Hr) as [Hn Hv].
        split; [exact Hn | rewrite Hv; lia].
      * eapply Forall_impl; [|exact Hb]. cbv beta. intros r [Hn Hr]. split; [exact Hn|lia].
Qed.

(** X7: the chunks of a document come out in page order, each with a page
    number between 1 and the page count; the skipped-page records come out
    in strictly increasing page order, each naming the document's file and a
    page between 1 and the page count. *)
Theorem output_is_in_page_order d g doc cs sp :
  open_pdf d = Ok doc ->
  process_pdf d g = Ok (cs, sp) ->
  StronglySorted Z.le (map page_of cs) /\
  Forall (fun c => chunk_page c = Some (JInt (page_of c)) /\
                   (1 <= page_of c <= Z.of_nat (page_count doc))%Z) cs /\
  StronglySorted Z.lt (map record_page sp) /\
  Forall (fun r => fst (fst r) = path_name d /\
                   (1 <= record_page r <= Z.of_nat (page_count doc))%Z) sp.
Proof.
  intros Hopen Hrun. unfold process_pdf in Hrun. rewrite Hopen in Hrun.
  cbn [bind] in Hrun. inversion Hrun; subst cs sp. clear Hrun.
  unfold process_pages.
  destruct (fold_process_page d doc g (seq 0 (page_count doc))
              {| chunks := []; skipped_pages := []; uuid_calls := 0 |})
    as (ids & _ & Hc & Hs).
  rewrite Hc, Hs. cbn [chunks skipped_pages app].
  destruct (concat_pages_sorted d doc (page_count doc) 0 ids) as [Hcs Hcb].
  destruct (flat_map_skips_sorted d doc (page_count doc) 0) as [Hss Hsb].
  cbv zeta in Hcs, Hcb, Hss, Hsb.
  split; [exact Hcs|]. split; [|split; [exact Hss|]].
  - eapply Forall_impl; [|exact Hcb]. cbv beta. intros c [Hp Hr]. split; [exact Hp|lia].
  - eapply Forall_impl; [|exact Hsb]. cbv beta. intros r [Hn Hr]. split; [exact Hn|lia].
Qed.

Lemma covers_window sents i j :
  j < List.length sents ->
  covers j (i, slice sents i (i + WINDOW)) = ((i <=? j)%nat && (j <? i + WINDOW)%nat)%bool.
Proof.
  intros Hj. unfold covers. cbn [fst snd]. rewrite slice_length.
  destruct (Nat.leb_spec i j) as [Hij|Hij]; cbn [andb]; [|reflexivity].
  destruct (Nat.ltb_spec j (i + WINDOW)) as [H1|H1];
    destruct (Nat.ltb_spec j (i + (Nat.min (i + WINDOW) (List.length sents) - i))) as [H2|H2];
    try reflexivity; lia.
Qed.

(** X8: every window of a page holds between 1 and [WINDOW] sentences, and
    every sentence of the page lies in at least one and at most two windows,
    so no sentence is repeated in more than two text chunks. *)
Theorem every_sentence_is_in_one_or_two_windows (sents : list string) (j : nat) :
  j < List.length sents ->
  (forall iw, In iw (page_windows sents) ->
     1 <= List.length (snd iw) <= WINDOW /\
     fst iw + List.length (snd iw) <= List.length sents) /\
  1 <= List.length (filter (covers j) (page_windows sents)) <= 2.
Proof.
  intros Hj. unfold page_windows. rewrite range_step_starts. split.
  - intros iw Hin. apply in_map_iff in Hin. destruct Hin as (i & <- & Hi).
    apply window_starts_In in Hi. destruct Hi as [Hi _].
    cbn [fst snd]. rewrite slice_length. change WINDOW with 5. lia.
  - rewrite filter_map_length.
    rewrite (filter_ext _ (fun i => ((i <=? j)%nat && (j <? i + WINDOW)%nat)%bool))
      by (intros i; now apply covers_window).
    split.
    + assert (Hin : In (j / STEP * STEP)
                       (filter (fun i => ((i <=? j)%nat && (j <? i + WINDOW)%nat)%bool)
                               (window_starts (List.length sents)))).
      { apply filter_In. split.
        - apply window_starts_In. change STEP with 3. split; [lia|]. now exists (j / 3).
        - change STEP with 3. change WINDOW with 5.
          apply andb_true_intro. split; [apply Nat.leb_le | apply Nat.ltb_lt]; lia. }
      destruct (filter _ _); [destruct Hin | cbn; lia].
    + apply (NoDup_incl_length (l' := [j / STEP * STEP - STEP; j / STEP * STEP])).
      * apply NoDup_filter, window_starts_NoDup.
      * intros i Hi. apply filter_In in Hi. destruct Hi as [Hi Hc].
        apply window_starts_In in Hi. destruct Hi as [_ [k ->]].
        apply andb_prop in Hc. destruct Hc as [H1 H2].
        apply Nat.leb_le in H1. apply Nat.ltb_lt in H2.
        revert H1 H2. change STEP with 3. change WINDOW with 5. intros H1 H2.
        assert (k = j / 3 \/ S k = j / 3) as [->|Hk] by lia.
        -- right. now left.
        -- left. lia.
Qed.

Lemma slice_as_firstn {A} (l : list A) (i w : nat) :
  slice l i (i + w) = firstn w (skipn i l).
Proof. unfold slice. f_equal. lia. Qed.

(** X9: the sentences of a window after its first [STEP] are the first
    [OVERLAP] sentences of the window that starts [STEP] later; the last
    window ends with the last sentence and is never longer than [STEP]; and
    when the page has more than [STEP] sentences and their number is no
    multiple of [STEP], the last window is the tail of the one before it, so
    the last text chunk repeats sentences and adds none. *)
Theorem consecutive_windows_overlap_and_the_last_may_add_nothing (sents : list string) :
  let N := List.length sents in
  (forall i,
     skipn STEP (slice sents i (i + WINDOW)) =
     firstn OVERLAP (slice sents (i + STEP) (i + STEP + WINDOW))) /\
  (forall i win,
     In (i, win) (page_windows sents) -> N <= i + STEP ->
     i + List.length win = N /\ List.length win <= STEP) /\
  (STEP < N -> N mod STEP <> 0 ->
   exists i prev win,
     In (i, prev) (page_windows sents) /\
     In (i + STEP, win) (page_windows sents) /\
     N <= i + STEP + STEP /\
     win = skipn STEP prev /\
     i + List.length prev = N).
Proof.
  intros N.
  assert (Hoverlap : forall i,
             skipn STEP (slice sents i (i + WINDOW)) =
             firstn OVERLAP (slice sents (i + STEP) (i + STEP + WINDOW))).
  { intros i. rewrite !slice_as_firstn.
    rewrite skipn_firstn_comm, skipn_skipn, firstn_firstn.
    change (WINDOW - STEP) with 2. change (Nat.min OVERLAP WINDOW) with 2.
    now rewrite (Nat.add_comm STEP i). }
  split; [exact Hoverlap|]. split.
  - intros i win Hin Hlast. unfold page_windows in Hin. rewrite range_step_starts in Hin.
    apply in_map_iff in Hin. destruct Hin as (i' & Heq & Hi). inversion Heq; subst i' win.
    apply window_starts_In in Hi. destruct Hi as [Hi _].
    rewrite slice_length. fold N. revert Hlast. change STEP with 3. change WINDOW with 5. lia.
  - intros Hmany Hrem.
    assert (Hin : forall i, i < N -> (exists k, i = k * STEP) ->
              In (i, slice sents i (i + WINDOW)) (page_windows sents)).
    { intros i Hi Hk. unfold page_windows. rewrite range_step_starts.
      apply in_map_iff. exists i. split; [reflexivity|]. now apply window_starts_In. }
    revert Hmany Hrem Hin. change STEP with 3. change WINDOW with 5. intros Hmany Hrem Hin.
    exists ((N - 1) / 3 * 3 - 3), (slice sents ((N - 1) / 3 * 3 - 3) ((N - 1) / 3 * 3 - 3 + 5)),
           (slice sents ((N - 1) / 3 * 3 - 3 + 3) ((N - 1) / 3 * 3 - 3 + 3 + 5)).
    split; [apply Hin; [lia | exists ((N - 1) / 3 - 1); lia]|].
    split; [apply Hin; [lia | exists ((N - 1) / 3); lia]|].
    split; [lia|]. split.
    + pose proof (Hoverlap ((N - 1) / 3 * 3 - 3)) as Ho.
      change STEP with 3 in Ho. change WINDOW with 5 in Ho. change OVERLAP with 2 in Ho.
      rewrite Ho. symmetry. apply firstn_all2.
      pose proof (slice_length sents ((N - 1) / 3 * 3 - 3 + 3)) as Hw.
      change WINDOW with 5 in Hw. rewrite Hw. fold N. lia.
    + pose proof (slice_length sents ((N - 1) / 3 * 3 - 3)) as Hl.
      change WINDOW with 5 in Hl. rewrite Hl. fold N. lia.
Qed.

Lemma append_csv_app tbls : forall tables,
  append_csv tbls tables = tables ++ append_csv tbls [].
Proof.
  induction tbls as [|[csv|e] tbls IH]; intros tables; cbn [append_csv].
  - now rewrite app_nil_r.
  - rewrite IH, (IH ([] ++ [csv])). cbn [app]. now rewrite <- app_assoc.
  - now rewrite app_nil_r.
Qed.

Lemma append_csv_all_ok good : append_csv (map Ok good) [] = good.
Proof.
  induction good as [|csv good IH]; [reflexivity|].
  cbn [map append_csv app]. rewrite append_csv_app, IH. reflexivity.
Qed.

Lemma append_csv_until_raise good e rest :
  append_csv (map Ok good ++ Raise e :: rest) [] = good.
Proof.
  induction good as [|csv good IH]; [reflexivity|].
  cbn [map append_csv app]. rewrite append_csv_app, IH. reflexivity.
Qed.

(** X10: table recovery on the primary path never fails the attempt and
    keeps what it got: whether the primary attempt raises, and with what,
    does not depend on camelot; when [camelot.read_pdf] raises the page has no
    tables, and when serialising a table raises the tables before it are kept
    and the ones after it are dropped. *)
Theorem camelot_failure_keeps_the_page_and_the_tables_before_it
        d doc page_no text tables :
  HAS_TABLES = true ->
  primary_attempt d doc page_no = Ok (text, tables) ->
  (forall d', exists tables', primary_attempt d' doc page_no = Ok (text, tables')) /\
  (forall e, camelot_read_pdf d page_no = Raise e -> tables = []) /\
  (forall good, camelot_read_pdf d page_no = Ok (map Ok good) -> tables = good) /\
  (forall good e rest,
     camelot_read_pdf d page_no = Ok (map Ok good ++ Raise e :: rest) -> tables = good).
Proof.
  intros Hon Hprim.
  assert (Hshape : forall d',
             primary_attempt d' doc page_no =
             bind (bind (load_page doc page_no) (fun page =>
                   bind (get_text page) (fun t =>
                     if HAS_OCR then bind (get_images page) (fun imgs => ocr_overlay imgs t)
                     else Ok t)))
                  (fun t => Ok (t, camelot_tables d' page_no []))).
  { intros d'. unfold primary_attempt.
    destruct (load_page doc page_no) as [page|e]; [|reflexivity]. cbn [bind].
    destruct (get_text page) as [t|e]; reflexivity. }
  rewrite Hshape in Hprim.
  destruct (bind (load_page doc page_no) _) as [t|e] eqn:Ht; [|discriminate].
  cbn [bind] in Hprim. inversion Hprim as [[Htext Htables]]. subst t.
  split; [|split; [|split]].
  - intros d'. rewrite Hshape. cbn [bind]. eauto.
  - intros e He. unfold camelot_tables. now rewrite Hon, He.
  - intros good Hg. unfold camelot_tables. rewrite Hon, Hg. apply append_csv_all_ok.
  - intros good e rest Hg. unfold camelot_tables. rewrite Hon, Hg.
    apply append_csv_until_raise.
Qed.

(** X11: a document that cannot be opened leaves no chunk in the merged
    list and exactly the record [(name, error)] of its own task in the
    whole-document failures (one task per path). *)
Theorem unopenable_document_leaves_no_chunk gens completed d e :
  NoDup (map path_str completed) ->
  In d completed ->
  open_pdf d = Raise e ->
  let st := aggregate (run_tasks gens completed) in
  filter (in_doc (path_str d)) (all_chunks st) = [] /\
  In (path_name d, e) (skipped_pdfs st) /\
  List.length (skipped_pdfs st) <= List.length completed.
Proof.
  intros Hnd Hin Hopen st. subst st.
  assert (Hrun : process_pdf d (gens d) = Raise e)
    by (unfold process_pdf; now rewrite Hopen).
  rewrite run_all_chunks, filter_in_doc_run by assumption.
  unfold future_chunks. cbn [snd]. rewrite Hrun.
  split; [reflexivity|].
  rewrite aggregate_by_future. cbn [skipped_pdfs]. unfold run_tasks. split.
  - apply in_flat_map. exists (d, process_pdf d (gens d)). split.
    + apply in_map_iff. now exists d.
    + unfold future_failure. cbn [fst snd]. rewrite Hrun. now left.
  - clear. induction completed as [|p completed IH]; [reflexivity|].
    cbn [map flat_map]. rewrite length_app. unfold future_failure at 1. cbn [fst snd].
    destruct (process_pdf p (gens p)) as [[cs sp]|e]; cbn [List.length]; lia.
Qed.

End MoreProperties.

(** ** Worked examples for the further facts *)

Lemma uuid_tally_inj m : forall n, uuid_tally m = uuid_tally n -> m = n.
Proof.
  induction m as [|m IH]; intros [|n] H; cbn in H.
  - reflexivity.
  - destruct n; discriminate.
  - destruct m; discriminate.
  - inversion H as [H']. f_equal. now apply IH.
Qed.

(** Page 2 of the mixed document: its text chunk and its first table chunk
    share one [chunk_id], which differs from the one of page 1. *)
Lemma mixed_document_chunk_ids :
  let doc := doc_of_pages [text_page "   "; text_page "Totals."; Raise "page 3 is damaged"] in
  let st := process_pages (caps := caps_tables) (seg := stub_segmenter)
              pdf_mixed doc uuid_tally in
  let c1 := nth 1 (chunks st) [] in
  let c2 := nth 2 (chunks st) [] in
  process_pdf (caps := caps_tables) (seg := stub_segmenter) pdf_mixed uuid_tally
    = Ok (chunks st, skipped_pages st) /\
  In c1 (chunks st) /\ In c2 (chunks st) /\
  chunk_page c1 = chunk_page c2 /\
  is_text c1 = true /\ is_table c2 = true /\
  chunk_id_of c1 = chunk_id_of c2 /\
  chunk_id_of (nth 0 (chunks st) []) <> chunk_id_of c1.
Proof.
  intros doc st c1 c2.
  assert (Hrun : process_pdf (caps := caps_tables) (seg := stub_segmenter)
                   pdf_mixed uuid_tally = Ok (chunks st, skipped_pages st))
    by reflexivity.
  assert (H1 : In c1 (chunks st)) by (right; left; reflexivity).
  assert (H2 : In c2 (chunks st)) by (right; right; left; reflexivity).
  split; [exact Hrun|]. split; [exact H1|]. split; [exact H2|].
  split; [reflexivity|]. split; [reflexivity|]. split; [reflexivity|].
  split.
  - apply (chunk_id_is_shared_by_the_chunks_of_a_page
             (caps := caps_tables) (seg := stub_segmenter)
             pdf_mixed uuid_tally (chunks st) (skipped_pages st) c1 c2 Hrun H1 H2).
    reflexivity.
  - assert (H0 : In (nth 0 (chunks st) []) (chunks st)) by (left; reflexivity).
    intros Hid.
    destruct (chunk_id_is_shared_by_the_chunks_of_a_page
                (caps := caps_tables) (seg := stub_segmenter)
                pdf_mixed uuid_tally (chunks st) (skipped_pages st)
                (nth 0 (chunks st) []) c1 Hrun H0 H1) as [_ Hpage].
    specialize (Hpage uuid_tally_inj Hid). discriminate Hpage.
Defined.


(** Page 1 of the mixed document holds three spaces and no sentence. *)
Lemma mixed_document_blank_page :
  let doc := doc_of_pages [text_page "   "; text_page "Totals."; Raise "page 3 is damaged"] in
  let st := process_pages (caps := caps_tables) (seg := stub_segmenter)
              pdf_mixed doc uuid_tally in
  open_pdf (caps := caps_tables) pdf_mixed = Ok doc /\
  process_pdf (caps := caps_tables) (seg := stub_segmenter) pdf_mixed uuid_tally
    = Ok (chunks st, skipped_pages st) /\
  0 < page_count doc /\
  extract_page (caps := caps_tables) pdf_mixed doc 0 = Extracted "   " [] /\
  sentences (seg := stub_segmenter) "   " = [] /\
  exists c,
    filter is_text (filter (on_page 1) (chunks st)) = [c] /\
    chunk_text c = Some (JStr "   ") /\
    chunk_loc c = [("page", JInt 1)].
Proof.
  intros doc st.
  split; [reflexivity|]. split; [reflexivity|]. split; [cbn; lia|].
  split; [reflexivity|]. split; [reflexivity|].
  destruct (page_without_sentences_gets_one_raw_chunk
              (caps := caps_tables) (seg := stub_segmenter)
              pdf_mixed uuid_tally doc (chunks st) (skipped_pages st) 0 "   " []
              eq_refl eq_refl (Nat.lt_0_succ 2) eq_refl eq_refl)
    as (c & H1 & H2 & H3 & _).
  exists c. split; [exact H1|]. split; [exact H2|exact H3].
Defined.

(** The two-page document processed without any optional capability. *)
Lemma two_pages_without_table_capability :
  let doc := doc_of_pages [text_page seven_sentences; Raise "page 2 is damaged"] in
  let st := process_pages (caps := caps_none) (seg := stub_segmenter)
              pdf_two_pages doc uuid_zero in
  let c := nth 0 (chunks st) [] in
  HAS_TABLES (Capabilities := caps_none) = false /\
  process_pdf (caps := caps_none) (seg := stub_segmenter) pdf_two_pages uuid_zero
    = Ok (chunks st, skipped_pages st) /\
  In c (chunks st) /\
  is_table c = false /\ is_text c = true /\ dict_get "tables" c = Some (JList []).
Proof.
  intros doc st c.
  assert (Hin : In c (chunks st)) by (left; reflexivity).
  split; [reflexivity|]. split; [reflexivity|]. split; [exact Hin|].
  exact (no_table_chunks_without_table_capability
           (caps := caps_none) (seg := stub_segmenter)
           pdf_two_pages uuid_zero (chunks st) (skipped_pages st) c
           eq_refl eq_refl Hin).
Defined.

(** The second table chunk of page 2 of the mixed document. *)
Lemma mixed_document_table_chunk :
  let doc := doc_of_pages [text_page "   "; text_page "Totals."; Raise "page 3 is damaged"] in
  let st := process_pages (caps := caps_tables) (seg := stub_segmenter)
              pdf_mixed doc uuid_tally in
  let c := nth 3 (chunks st) [] in
  open_pdf (caps := caps_tables) pdf_mixed = Ok doc /\
  process_pdf (caps := caps_tables) (seg := stub_segmenter) pdf_mixed uuid_tally
    = Ok (chunks st, skipped_pages st) /\
  In c (chunks st) /\
  exists page_no text tables,
    page_no < page_count doc /\
    chunk_page c = Some (JInt (Z.of_nat page_no + 1)) /\
    extract_page (caps := caps_tables) pdf_mixed doc page_no = Extracted text tables /\
    dict_get "tables" c = Some (JList (map JStr tables)).
Proof.
  intros doc st c.
  assert (Hin : In c (chunks st)) by (do 3 right; left; reflexivity).
  split; [reflexivity|]. split; [reflexivity|]. split; [exact Hin|].
  destruct (every_chunk_carries_the_tables_of_its_page
              (caps := caps_tables) (seg := stub_segmenter)
              pdf_mixed uuid_tally doc (chunks st) (skipped_pages st) c
              eq_refl eq_refl Hin)
    as (page_no & text & tables & H1 & H2 & H3 & H4 & _).
  exists page_no, text, tables. auto.
Defined.

(** The mixed document comes out in page order. *)
Lemma mixed_document_page_order :
  let doc := doc_of_pages [text_page "   "; text_page "Totals."; Raise "page 3 is damaged"] in
  let st := process_pages (caps := caps_tables) (seg := stub_segmenter)
              pdf_mixed doc uuid_tally in
  open_pdf (caps := caps_tables) pdf_mixed = Ok doc /\
  process_pdf (caps := caps_tables) (seg := stub_segmenter) pdf_mixed uuid_tally
    = Ok (chunks st, skipped_pages st) /\
  StronglySorted Z.le (map page_of (chunks st)) /\
  StronglySorted Z.lt (map record_page (skipped_pages st)).
Proof.
  intros doc st. split; [reflexivity|]. split; [reflexivity|].
  destruct (output_is_in_page_order (caps := caps_tables) (seg := stub_segmenter)
              pdf_mixed uuid_tally doc (chunks st) (skipped_pages st) eq_refl eq_refl)
    as (H1 & _ & H2 & _).
  split; [exact H1|exact H2].
Defined.

(** Sentence 5 of seven lies in the first two windows. *)
Lemma seven_sentences_coverage :
  4 < List.length ["S1"; "S2"; "S3"; "S4"; "S5"; "S6"; "S7"] /\
  1 <= List.length (filter (covers 4)
                      (page_windows ["S1"; "S2"; "S3"; "S4"; "S5"; "S6"; "S7"])) <= 2.
Proof.
  assert (H : 4 < List.length ["S1"; "S2"; "S3"; "S4"; "S5"; "S6"; "S7"])
    by (cbn; lia).
  split; [exact H|].
  apply (every_sentence_is_in_one_or_two_windows
           ["S1"; "S2"; "S3"; "S4"; "S5"; "S6"; "S7"] 4 H).
Defined.

(** Page 2 of the mixed document: the third table fails to serialise, the
    two before it are kept. *)
Lemma mixed_document_partial_tables :
  let doc := doc_of_pages [text_page "   "; text_page "Totals."; Raise "page 3 is damaged"] in
  HAS_TABLES (Capabilities := caps_tables) = true /\
  primary_attempt (caps := caps_tables) pdf_mixed doc 1 = Ok ("Totals.", ["a,b"; "c,d"]) /\
  camelot_read_pdf pdf_mixed 1
    = Ok (map Ok ["a,b"; "c,d"] ++ Raise "cannot serialise" :: [Ok "e,f"]) /\
  forall d', exists tables',
    primary_attempt (caps := caps_tables) d' doc 1 = Ok ("Totals.", tables').
Proof.
  intros doc. split; [reflexivity|]. split; [reflexivity|]. split; [reflexivity|].
  apply (camelot_failure_keeps_the_page_and_the_tables_before_it
           (caps := caps_tables) pdf_mixed doc 1 "Totals." ["a,b"; "c,d"]
           eq_refl eq_refl).
Defined.

(** A run of the unopenable document and one that opens. *)
Lemma run_with_unopenable_document :
  let st := aggregate (run_tasks (caps := caps_all) (seg := stub_segmenter)
                         (fun _ => uuid_zero) [pdf_unopenable; pdf_b]) in
  NoDup (map path_str [pdf_unopenable; pdf_b]) /\
  In pdf_unopenable [pdf_unopenable; pdf_b] /\
  open_pdf (caps := caps_all) pdf_unopenable = Raise "cannot open broken file" /\
  filter (in_doc "raw/pdf/broken.pdf") (all_chunks st) = [] /\
  In ("broken.pdf", "cannot open broken file") (skipped_pdfs st).
Proof.
  intros st.
  assert (Hnd : NoDup (map path_str [pdf_unopenable; pdf_b])).
  { cbn [map]. constructor.
    - intros [H|[]]. discriminate H.
    - constructor; [intros []|constructor]. }
  assert (Hin : In pdf_unopenable [pdf_unopenable; pdf_b]) by (left; reflexivity).
  split; [exact Hnd|]. split; [exact Hin|]. split; [reflexivity|].
  destruct (unopenable_document_leaves_no_chunk (caps := caps_all) (seg := stub_segmenter)
              (fun _ => uuid_zero) [pdf_unopenable; pdf_b] pdf_unopenable
              "cannot open broken file" Hnd Hin eq_refl) as (H1 & H2 & _).
  split; [exact H1|exact H2].
Defined.

(** ** Facts about dicts *)

Lemma dict_get_set_same k v d : dict_get k (dict_set k v d) = Some v.
Proof.
  induction d as [|[k' v'] d IH]; cbn [dict_set dict_get].
  - now rewrite String.eqb_refl.
  - destruct (String.eqb k k') eqn:E; cbn [dict_get]; rewrite E; [reflexivity|exact IH].
Qed.

Lemma dict_get_set_other k k' v d :
  k' <> k -> dict_get k' (dict_set k v d) = dict_get k' d.
Proof.
  intros Hne. induction d as [|[k0 v0] d IH]; cbn [dict_set dict_get].
  - destruct (String.eqb_spec k' k); [contradiction|reflexivity].
  - destruct (String.eqb_spec k k0) as [->|Hk]; cbn [dict_get].
    + destruct (String.eqb_spec k' k0); [contradiction|reflexivity].
    + destruct (String.eqb k' k0); [reflexivity|exact IH].
Qed.

Lemma dict_set_twice k v v' d : dict_set k v (dict_set k v' d) = dict_set k v d.
Proof.
  induction d as [|[k0 v0] d IH]; cbn [dict_set].
  - now rewrite String.eqb_refl.
  - destruct (String.eqb k k0) eqn:E; cbn [dict_set]; rewrite E; [reflexivity|].
    now rewrite IH.
Qed.



(** ** Facts about enrich_chunks *)

Section EnrichProperties.

Context {ner : EntityRecognizer}.

Lemma ner_input_after_enrich c v :
  ner_input (dict_set "ents" v c) = ner_input c.
Proof.
  unfold ner_input, get_default.
  rewrite dict_get_set_other by discriminate. reflexivity.
Qed.

Lemma enrich_chunk_fields c c' :
  enrich_chunk c = Ok c' ->
  (forall k, k <> "ents" -> dict_get k c' = dict_get k c) /\
  exists text,
    ner_input c = Ok text /\
    dict_get "ents" c' = Some (JList (map ent_json (ner_ents text))).
Proof.
  unfold enrich_chunk. destruct (ner_input c) as [text|e]; [|discriminate].
  cbn [bind]. intros H. inversion H; subst c'. split.
  - intros k Hk. now apply dict_get_set_other.
  - exists text. split; [reflexivity|apply dict_get_set_same].
Qed.


Lemma enrich_chunks_nth cs cs' :
  enrich_chunks cs = Ok cs' ->
  List.length cs' = List.length cs /\
  forall i c c',
    nth_error cs i = Some c -> nth_error cs' i = Some c' ->
    (forall k, k <> "ents" -> dict_get k c' = dict_get k c) /\
    exists text,
      ner_input c = Ok text /\
      dict_get "ents" c' = Some (JList (map ent_json (ner_ents text))).
Proof.
  revert cs'. induction cs as [|c0 cs IH]; intros cs' H; cbn [enrich_chunks] in H.
  - inversion H; subst. split; [reflexivity|]. intros i c c' Hc. destruct i; discriminate.
  - destruct (enrich_chunk c0) as [c0'|e] eqn:E0; [|discriminate]. cbn [bind] in H.
    destruct (enrich_chunks cs) as [rest|e] eqn:Er; [|discriminate]. cbn [bind] in H.
    inversion H; subst cs'. destruct (IH rest eq_refl) as [Hlen Hnth].
    split; [cbn; now rewrite Hlen|].
    intros [|i] c c' Hc Hc'; cbn [nth_error] in Hc, Hc'.
    + inversion Hc; inversion Hc'; subst. now apply enrich_chunk_fields.
    + now apply (Hnth i).
Qed.


Lemma enrich_chunks_ok cs :
  (forall c, In c cs -> is_str (dict_get "text" c) = true) ->
  exists cs', enrich_chunks cs = Ok cs'.
Proof.
  induction cs as [|c0 cs IH]; intros Hall; [now exists []|].
  destruct IH as [rest Hrest]; [intros c Hc; apply Hall; now right|].
  cbn [enrich_chunks]. unfold enrich_chunk, ner_input, get_default.
  pose proof (Hall c0 (or_introl eq_refl)) as H0.
  destruct (dict_get "text" c0) as [[s| | |]|]; try discriminate.
  cbn [bind]. rewrite Hrest. cbn [bind]. eauto.
Qed.

Lemma enrich_keeps_indexable cs cs' :
  enrich_chunks cs = Ok cs' ->
  forallb indexable cs = true -> forallb indexable cs' = true.
Proof.
  intros H Hall. destruct (enrich_chunks_nth cs cs' H) as [Hlen Hnth].
  rewrite forallb_forall in Hall |- *. intros c' Hc'.
  apply In_nth_error in Hc'. destruct Hc' as [i Hi].
  assert (Hlt : i < List.length cs).
  { rewrite <- Hlen. apply nth_error_Some. congruence. }
  destruct (nth_error cs i) as [c|] eqn:Hc; [|apply nth_error_None in Hc; lia].
  destruct (Hnth i c c' Hc Hi) as [Hsame _].
  pose proof (Hall c (nth_error_In _ _ Hc)) as Hidx.
  unfold indexable in *. rewrite !Hsame by discriminate. exact Hidx.
Qed.

(** X13: running enrich_chunks.py on its own output changes nothing. *)
Theorem enrich_twice_is_enrich_once cs cs' :
  enrich_chunks cs = Ok cs' -> enrich_chunks cs' = Ok cs'.
Proof.
  revert cs'. induction cs as [|c0 cs IH]; intros cs' H; cbn [enrich_chunks] in H.
  - inversion H; subst. reflexivity.
  - destruct (enrich_chunk c0) as [c0'|e] eqn:E0; [|discriminate]. cbn [bind] in H.
    destruct (enrich_chunks cs) as [rest|e] eqn:Er; [|discriminate]. cbn [bind] in H.
    inversion H; subst cs'. cbn [enrich_chunks]. rewrite (IH rest eq_refl).
    assert (E1 : enrich_chunk c0' = Ok c0').
    { unfold enrich_chunk in E0 |- *.
      destruct (ner_input c0) as [text|e] eqn:Et; [|discriminate].
      cbn [bind] in E0. inversion E0; subst c0'.
      rewrite ner_input_after_enrich, Et. cbn [bind]. now rewrite dict_set_twice. }
    rewrite E1. reflexivity.
Qed.


End EnrichProperties.

(** ** Facts about embed_index *)

Section EmbedProperties.

Context {codec : JsonCodec} {enc : Encoder}.

Lemma indexable_fields c :
  indexable c = true ->
  exists s id src path loc,
    dict_get "text" c = Some (JStr s) /\
    dict_get "chunk_id" c = Some id /\ is_scalar (Some id) = true /\
    dict_get "source" c = Some src /\ is_scalar (Some src) = true /\
    dict_get "doc_path" c = Some path /\ is_scalar (Some path) = true /\
    dict_get "loc" c = Some loc.
Proof.
  unfold indexable. intros H.
  repeat (apply andb_prop in H; destruct H as [H ?]).
  destruct (dict_get "text" c) as [[s| | |]|]; try discriminate.
  destruct (dict_get "chunk_id" c) as [id|]; [|discriminate].
  destruct (dict_get "source" c) as [src|]; [|discriminate].
  destruct (dict_get "doc_path" c) as [path|]; [|discriminate].
  destruct (dict_get "loc" c) as [loc|]; [|discriminate].
  exists s, id, src, path, loc. repeat split; assumption.
Qed.

Lemma sql_text_scalar v : is_scalar (Some v) = true -> exists s, sql_text v = Ok s.
Proof. destruct v; cbn; try discriminate; eauto. Qed.


(** What the script does with one chunk, when it gets through. *)
Lemma to_insert_row_ok i c t :
  to_insert_row i c = Ok t ->
  exists id src path loc text,
    dict_get "chunk_id" c = Some id /\ dict_get "source" c = Some src /\
    dict_get "doc_path" c = Some path /\ dict_get "loc" c = Some loc /\
    dict_get "text" c = Some text /\
    t = (i, id, src, path, dumps loc, text, dumps (get_default "ents" (JList []) c)).
Proof.
  unfold to_insert_row, getitem.
  destruct (dict_get "chunk_id" c) as [id|]; [|discriminate]. cbn [bind].
  destruct (dict_get "source" c) as [src|]; [|discriminate]. cbn [bind].
  destruct (dict_get "doc_path" c) as [path|]; [|discriminate]. cbn [bind].
  destruct (dict_get "loc" c) as [loc|]; [|discriminate]. cbn [bind].
  destruct (dict_get "text" c) as [text|]; [|discriminate]. cbn [bind].
  intros H. inversion H. exists id, src, path, loc, text. repeat split.
Qed.

Lemma text_512_ok c t :
  text_512 c = Ok t ->
  exists s, dict_get "text" c = Some (JStr s) /\ t = substring 0 512 s.
Proof.
  unfold text_512, getitem. destruct (dict_get "text" c) as [[s| | |]|]; cbn [bind];
    try discriminate.
  intros H. inversion H. now exists s.
Qed.

Lemma embed_texts_nth cs : forall ts,
  embed_texts cs = Ok ts ->
  List.length ts = List.length cs /\
  forall i c, nth_error cs i = Some c ->
    exists s, dict_get "text" c = Some (JStr s) /\
              nth_error ts i = Some (substring 0 512 s).
Proof.
  induction cs as [|c0 cs IH]; intros ts H; cbn [embed_texts] in H.
  - inversion H; subst. split; [reflexivity|]. intros i c Hc. destruct i; discriminate.
  - destruct (text_512 c0) as [t|e] eqn:Et; [|discriminate]. cbn [bind] in H.
    destruct (embed_texts cs) as [rest|e] eqn:Er; [|discriminate]. cbn [bind] in H.
    inversion H; subst ts. destruct (IH rest eq_refl) as [Hlen Hnth].
    split; [cbn; now rewrite Hlen|].
    intros [|i] c Hc; cbn [nth_error] in Hc |- *.
    + inversion Hc; subst. apply text_512_ok in Et. destruct Et as (s & Hs & ->).
      now exists s.
    + now apply Hnth.
Qed.

Lemma to_insert_nth cs : forall i0 ts,
  to_insert i0 cs = Ok ts ->
  List.length ts = List.length cs /\
  forall i c, nth_error cs i = Some c ->
    exists t, nth_error ts i = Some t /\ to_insert_row (i0 + i) c = Ok t.
Proof.
  induction cs as [|c0 cs IH]; intros i0 ts H; cbn [to_insert] in H.
  - inversion H; subst. split; [reflexivity|]. intros i c Hc. destruct i; discriminate.
  - destruct (to_insert_row i0 c0) as [t|e] eqn:Et; [|discriminate]. cbn [bind] in H.
    destruct (to_insert (S i0) cs) as [rest|e] eqn:Er; [|discriminate]. cbn [bind] in H.
    inversion H; subst ts. destruct (IH (S i0) rest Er) as [Hlen Hnth].
    split; [cbn; now rewrite Hlen|].
    intros [|i] c Hc; cbn [nth_error] in Hc |- *.
    + inversion Hc; subst. exists t. now rewrite Nat.add_0_r.
    + destruct (Hnth i c Hc) as (t' & Ht' & Hrow). exists t'.
      split; [exact Ht'|]. now rewrite Nat.add_succ_r.
Qed.

Lemma insert_rows_nth ts : forall rows,
  insert_rows ts = Ok rows ->
  List.length rows = List.length ts /\
  forall i t, nth_error ts i = Some t ->
    exists row, nth_error rows i = Some row /\ insert_row t = Ok row.
Proof.
  induction ts as [|t0 ts IH]; intros rows H; cbn [insert_rows] in H.
  - inversion H; subst. split; [reflexivity|]. intros i t Ht. destruct i; discriminate.
  - destruct (insert_row t0) as [r|e] eqn:Et; [|discriminate]. cbn [bind] in H.
    destruct (insert_rows ts) as [rest|e] eqn:Er; [|discriminate]. cbn [bind] in H.
    inversion H; subst rows. destruct (IH rest eq_refl) as [Hlen Hnth].
    split; [cbn; now rewrite Hlen|].
    intros [|i] t Ht; cbn [nth_error] in Ht |- *.
    + inversion Ht; subst. now exists r.
    + now apply Hnth.
Qed.

Lemma insert_row_ok i id src path loc text ents row :
  insert_row (i, id, src, path, loc, text, ents) = Ok row ->
  row_id row = Z.of_nat i /\
  sql_text id = Ok (row_chunk_id row) /\
  sql_text src = Ok (row_source row) /\
  sql_text path = Ok (row_doc_path row) /\
  sql_text text = Ok (row_text row) /\
  row_loc row = loc /\ row_ents row = ents.
Proof.
  unfold insert_row.
  destruct (sql_text id) as [id'|e]; [|discriminate]. cbn [bind].
  destruct (sql_text src) as [src'|e]; [|discriminate]. cbn [bind].
  destruct (sql_text path) as [path'|e]; [|discriminate]. cbn [bind].
  destruct (sql_text text) as [text'|e]; [|discriminate]. cbn [bind].
  intros H. inversion H. cbn. repeat split.
Qed.

Lemma nth_error_combine_seq {A} (l : list A) : forall k i x,
  nth_error l i = Some x ->
  nth_error (combine (seq k (List.length l)) l) i = Some (k + i, x).
Proof.
  induction l as [|y l IH]; intros k i x H; [destruct i; discriminate|].
  cbn [List.length seq combine]. destruct i as [|i]; cbn [nth_error] in H |- *.
  - inversion H. now rewrite Nat.add_0_r.
  - rewrite (IH (S k) i x H). do 2 f_equal. lia.
Qed.

(** The row stored for the chunk at position [i]. *)
Lemma embed_index_row cs entries rows i c :
  embed_index cs = Ok (entries, rows) ->
  nth_error cs i = Some c ->
  exists s row loc,
    dict_get "text" c = Some (JStr s) /\
    nth_error entries i = Some (i, substring 0 512 s) /\
    nth_error rows i = Some row /\
    row_id row = Z.of_nat i /\
    row_text row = s /\
    dict_get "loc" c = Some loc /\
    row_loc row = dumps loc /\
    row_ents row = dumps (get_default "ents" (JList []) c) /\
    (exists v, dict_get "doc_path" c = Some v /\ sql_text v = Ok (row_doc_path row)) /\
    (exists v, dict_get "chunk_id" c = Some v /\ sql_text v = Ok (row_chunk_id row)) /\
    (exists v, dict_get "source" c = Some v /\ sql_text v = Ok (row_source row)).
Proof.
  unfold embed_index. intros H Hc.
  destruct (embed_texts cs) as [texts|e] eqn:Et; [|discriminate]. cbn [bind] in H.
  destruct (encode_dim texts) as [dim|e] eqn:Ed; [|discriminate]. cbn [bind] in H.
  destruct (to_insert 0 cs) as [ts|e] eqn:Ei; [|discriminate]. cbn [bind] in H.
  destruct (insert_rows ts) as [rs|e] eqn:Er; [|discriminate]. cbn [bind] in H.
  inversion H; subst entries rows. clear H.
  destruct (embed_texts_nth cs texts Et) as [Hlt Ht].
  destruct (to_insert_nth cs 0 ts Ei) as [Hli Hi].
  destruct (insert_rows_nth ts rs Er) as [Hlr Hr].
  destruct (Ht i c Hc) as (s & Hs & Hts).
  destruct (Hi i c Hc) as (t & Hti & Hrow). cbn [Nat.add] in Hrow.
  destruct (Hr i t Hti) as (row & Hrow_i & Hins).
  apply to_insert_row_ok in Hrow.
  destruct Hrow as (id & src & path & loc & text & Hid & Hsrc & Hpath & Hloc & Htext & ->).
  apply insert_row_ok in Hins.
  destruct Hins as (Hrid & Hcid & Hsrc' & Hpath' & Htext' & Hrloc & Hrents).
  rewrite Hs in Htext. inversion Htext; subst text. cbn [sql_text] in Htext'.
  inversion Htext' as [Hrt].
  exists s, row, loc. split; [exact Hs|]. split.
  - exact (nth_error_combine_seq texts 0 i _ Hts).
  - split; [exact Hrow_i|]. split; [exact Hrid|]. split; [now symmetry|].
    split; [exact Hloc|]. split; [exact Hrloc|]. split; [exact Hrents|].
    split; [now exists path|]. split; [now exists id|now exists src].
Qed.

Lemma embed_index_lengths cs entries rows :
  embed_index cs = Ok (entries, rows) ->
  List.length entries = List.length cs /\ List.length rows = List.length cs.
Proof.
  intros H. unfold embed_index in H.
  destruct (embed_texts cs) as [texts|e] eqn:Et; [|discriminate]. cbn [bind] in H.
  destruct (encode_dim texts) as [dim|e] eqn:Ed; [|discriminate]. cbn [bind] in H.
  destruct (to_insert 0 cs) as [ts|e] eqn:Ei; [|discriminate]. cbn [bind] in H.
  destruct (insert_rows ts) as [rs|e] eqn:Er; [|discriminate]. cbn [bind] in H.
  inversion H; subst entries rows.
  destruct (embed_texts_nth cs texts Et) as [Hlt _].
  destruct (to_insert_nth cs 0 ts Ei) as [Hli _].
  destruct (insert_rows_nth ts rs Er) as [Hlr _].
  rewrite length_combine, length_seq, Nat.min_id. split; congruence.
Qed.





End EmbedProperties.

(** ** The scripts in a row: extract_pdf, enrich_chunks, embed_index *)

Section Pipeline.

Context {caps : Capabilities} {seg : Segmenter}
        {ner : EntityRecognizer} {codec : JsonCodec} {enc : Encoder}.

Lemma embed_texts_ok cs :
  forallb indexable cs = true -> exists texts, embed_texts cs = Ok texts.
Proof.
  induction cs as [|c cs IH]; cbn [forallb]; intros H; [now exists []|].
  apply andb_prop in H. destruct H as [Hc Hall]. destruct (IH Hall) as [rest Hrest].
  destruct (indexable_fields c Hc) as (s & _ & _ & _ & _ & Hs & _).
  cbn [embed_texts]. unfold text_512, getitem. rewrite Hs. cbn [bind].
  rewrite Hrest. cbn [bind]. eauto.
Qed.

Lemma insert_all_ok cs : forall i,
  forallb indexable cs = true ->
  exists ts rows, to_insert i cs = Ok ts /\ insert_rows ts = Ok rows.
Proof.
  induction cs as [|c cs IH]; cbn [forallb]; intros i H; [now exists [], []|].
  apply andb_prop in H. destruct H as [Hc Hall].
  destruct (IH (S i) Hall) as (ts & rows & Hts & Hrows).
  destruct (indexable_fields c Hc)
    as (s & id & src & path & loc & Hs & Hid & Hid' & Hsrc & Hsrc' & Hpath & Hpath' & Hloc).
  destruct (sql_text_scalar id Hid') as [id' Eid].
  destruct (sql_text_scalar src Hsrc') as [src' Esrc].
  destruct (sql_text_scalar path Hpath') as [path' Epath].
  cbn [to_insert]. unfold to_insert_row, getitem.
  rewrite Hid, Hsrc, Hpath, Hloc, Hs. cbn [bind]. rewrite Hts. cbn [bind].
  eexists. eexists. split; [reflexivity|].
  cbn [insert_rows insert_row]. rewrite Eid, Esrc, Epath. cbn [bind sql_text].
  rewrite Hrows. cbn [bind]. reflexivity.
Qed.


Lemma indexable_embed_index_ok (cs : list dict) texts dim :
  forallb indexable cs = true ->
  embed_texts cs = Ok texts ->
  encode_dim texts = Ok dim ->
  exists entries rows, embed_index cs = Ok (entries, rows).
Proof.
  intros Hall Ht Hd.
  destruct (insert_all_ok cs 0 Hall) as (ts & rows & Hts & Hrows).
  unfold embed_index. rewrite Ht. cbn [bind]. rewrite Hd. cbn [bind].
  rewrite Hts. cbn [bind]. rewrite Hrows. cbn [bind]. eauto.
Qed.


(** Every chunk of a run comes from a page of one of its documents. *)
Lemma run_chunk_origin gens completed c :
  In c (all_chunks (aggregate (run_tasks gens completed))) ->
  exists d doc q,
    In d completed /\ open_pdf d = Ok doc /\ q < page_count doc /\
    is_extracted d doc q = true /\
    In c (page_contrib d doc q (gens d (extracted_before d doc q))).
Proof.
  rewrite run_all_chunks. intros Hin. apply in_flat_map in Hin.
  destruct Hin as (d & Hd & Hc). unfold future_chunks in Hc. cbn [snd] in Hc.
  destruct (process_pdf d (gens d)) as [[cs sp]|e] eqn:Hrun; [|destruct Hc].
  destruct (process_pdf_opened d (gens d) cs sp Hrun) as [doc Hopen].
  destruct (process_pdf_chunk_origin d (gens d) doc cs sp c Hopen Hrun Hc)
    as (q & Hq & Hex & _ & _ & Hcq).
  exists d, doc, q. auto.
Qed.

(** The fixed shape of the chunks that [process_pdf] builds. *)
Lemma page_contrib_shape d doc q id c :
  In c (page_contrib d doc q id) ->
  indexable c = true /\
  dict_get "ents" c = None /\
  dict_get "source" c = Some (JStr "pdf") /\
  dict_get "doc_path" c = Some (JStr (path_str d)) /\
  exists loc,
    dict_get "loc" c = Some (JDict loc) /\
    dict_get "page" loc = Some (JInt (Z.of_nat q + 1)).
Proof.
  unfold page_contrib. destruct (extract_page d doc q) as [text tables|r]; [|intros []].
  unfold page_chunks. intros Hc. apply in_app_or in Hc. destruct Hc as [Hc|Hc].
  - unfold text_chunks in Hc. destruct (sentences text) as [|s ss].
    + destruct Hc as [<-|[]]. repeat split. eexists. split; reflexivity.
    + apply in_map_iff in Hc. destruct Hc as ([i win] & <- & _).
      repeat split. eexists. split; reflexivity.
  - unfold table_chunks in Hc. apply in_map_iff in Hc.
    destruct Hc as ([ti tbl] & <- & _). repeat split. eexists. split; reflexivity.
Qed.

Lemma run_output_indexable gens completed :
  forallb indexable (all_chunks (aggregate (run_tasks gens completed))) = true.
Proof.
  apply forallb_forall. intros c Hc.
  destruct (run_chunk_origin gens completed c Hc) as (d & doc & q & _ & _ & _ & _ & Hcq).
  now destruct (page_contrib_shape d doc q _ c Hcq).
Qed.

(** X17: the three scripts compose. Whatever the documents, a non-empty
    chunk list that extract_pdf.py writes is accepted by embed_index.py as it
    is, with [ents] stored as [[]] for every chunk, provided the encoder
    accepts every non-empty list of texts; it is also accepted by
    enrich_chunks.py, whose output embed_index.py accepts in turn. *)
Theorem extractor_output_can_be_enriched_and_indexed gens completed :
  let out := all_chunks (aggregate (run_tasks gens completed)) in
  (forall texts, texts <> [] -> exists dim, encode_dim texts = Ok dim) ->
  out <> [] ->
  (exists entries rows,
     embed_index out = Ok (entries, rows) /\
     forall row, In row rows -> row_ents row = dumps (JList [])) /\
  (exists out',
     enrich_chunks out = Ok out' /\
     List.length out' = List.length out /\
     exists entries rows, embed_index out' = Ok (entries, rows)).
Proof.
  intros out Henc Hne.
  pose proof (run_output_indexable gens completed) as Hidx. fold out in Hidx.
  assert (Hembed : forall cs, cs <> [] -> forallb indexable cs = true ->
             exists entries rows, embed_index cs = Ok (entries, rows)).
  { intros cs Hcs Hall. destruct (embed_texts_ok cs Hall) as [texts Ht].
    destruct (Henc texts) as [dim Hd].
    - destruct (embed_texts_nth cs texts Ht) as [Hlen _].
      destruct texts; [destruct cs; [congruence|discriminate]|discriminate].
    - eapply indexable_embed_index_ok; eassumption. }
  split.
  - destruct (Hembed out Hne Hidx) as (entries & rows & H).
    exists entries, rows. split; [exact H|].
    intros row Hrow. apply In_nth_error in Hrow. destruct Hrow as [i Hi].
    assert (Hlen : List.length rows = List.length out)
      by (now destruct (embed_index_lengths out entries rows H)).
    assert (Hlt : i < List.length out).
    { rewrite <- Hlen. apply nth_error_Some. congruence. }
    destruct (nth_error out i) as [c|] eqn:Hc; [|apply nth_error_None in Hc; lia].
    destruct (embed_index_row out entries rows i c H Hc)
      as (s & row' & loc & _ & _ & Hrow' & _ & _ & _ & _ & Hents & _).
    rewrite Hi in Hrow'. inversion Hrow'; subst row'. rewrite Hents.
    destruct (run_chunk_origin gens completed c (nth_error_In _ _ Hc))
      as (d & doc & q & _ & _ & _ & _ & Hcq).
    destruct (page_contrib_shape d doc q _ c Hcq) as (_ & Hnone & _).
    unfold get_default. now rewrite Hnone.
  - destruct (enrich_chunks_ok out) as [out' Hout'].
    { intros c Hc. rewrite forallb_forall in Hidx. specialize (Hidx c Hc).
      unfold indexable in Hidx. repeat (apply andb_prop in Hidx; destruct Hidx as [Hidx ?]).
      exact Hidx. }
    exists out'. split; [exact Hout'|].
    destruct (enrich_chunks_nth out out' Hout') as [Hlen _].
    split; [exact Hlen|].
    apply Hembed; [|eapply enrich_keeps_indexable; eassumption].
    destruct out'; [destruct out; [congruence|discriminate]|discriminate].
Qed.

End Pipeline.

(** ** Facts about the retrieval API *)

Section ApiProperties.

Context {codec : JsonCodec} {enc : Encoder}.
Variable score : Type.

Lemma dense_search_from_nth meta hits : forall r out,
  dense_search_from score meta r hits = Ok out ->
  List.length out = List.length hits /\
  forall i p, nth_error out i = Some p ->
    p_rank p = r + i /\
    exists s idx row,
      nth_error hits i = Some (s, idx) /\
      fetch_row meta idx = Some row /\
      p_score p = s /\
      p_doc_path p = row_doc_path row /\
      p_text p = row_text row /\
      loads (row_loc row) = Ok (p_loc p) /\
      loads (row_ents row) = Ok (p_ents p).
Proof.
  induction hits as [|[s idx] hits IH]; intros r out H; cbn [dense_search_from] in H.
  - inversion H; subst. split; [reflexivity|]. intros i p Hp. destruct i; discriminate.
  - destruct (fetch_row meta idx) as [row|] eqn:Hrow; [|discriminate].
    destruct (loads (row_loc row)) as [loc|e] eqn:Hloc; [|discriminate]. cbn [bind] in H.
    destruct (loads (row_ents row)) as [ents|e] eqn:Hents; [|discriminate]. cbn [bind] in H.
    destruct (dense_search_from score meta (S r) hits) as [rest|e] eqn:Hrest; [|discriminate].
    cbn [bind] in H. inversion H; subst out. clear H.
    destruct (IH (S r) rest Hrest) as [Hlen Hnth].
    split; [cbn; now rewrite Hlen|].
    intros [|i] p Hp; cbn [nth_error] in Hp |- *.
    + inversion Hp; subst p. cbn. split; [lia|].
      exists s, idx, row. repeat split; assumption.
    + destruct (Hnth i p Hp) as [Hr Hex]. split; [lia|exact Hex].
Qed.

Lemma dense_search_from_missing meta hits s idx : forall r,
  In (s, idx) hits -> fetch_row meta idx = None ->
  exists e, dense_search_from score meta r hits = Raise e.
Proof.
  induction hits as [|[s0 idx0] hits IH]; intros r Hin Hnone; [destruct Hin|].
  cbn [dense_search_from].
  destruct (fetch_row meta idx0) as [row|] eqn:Hrow; [|eauto].
  destruct Hin as [Heq|Hin]; [inversion Heq; subst; congruence|].
  destruct (loads (row_loc row)) as [loc|e]; [|cbn; eauto]. cbn [bind].
  destruct (loads (row_ents row)) as [ents|e]; [|cbn; eauto]. cbn [bind].
  destruct (IH (S r) Hin Hnone) as [e He]. rewrite He. cbn. eauto.
Qed.

(** X18: when [dense_search] returns, it returns one passage per hit of
    the index, in the order of the hits; the passage at position [i] has
    rank [i] and the score of hit [i], and its path, text, [loc] and [ents]
    are read from the row of [meta] whose [id] is the id of that hit. *)
Theorem dense_search_returns_one_passage_per_hit search meta q k out :
  dense_search score search meta q k = Ok out ->
  exists hits,
    search q k = Ok hits /\
    List.length out = List.length hits /\
    forall i p, nth_error out i = Some p ->
      p_rank p = i /\
      exists s idx row,
        nth_error hits i = Some (s, idx) /\
        fetch_row meta idx = Some row /\
        p_score p = s /\
        p_doc_path p = row_doc_path row /\
        p_text p = row_text row /\
        loads (row_loc row) = Ok (p_loc p) /\
        loads (row_ents row) = Ok (p_ents p).
Proof.
  unfold dense_search. destruct (search q k) as [hits|e]; [|discriminate].
  cbn [bind]. intros H. exists hits. split; [reflexivity|].
  destruct (dense_search_from_nth meta hits 0 out H) as [Hlen Hnth].
  split; [exact Hlen|]. intros i p Hp. now apply Hnth.
Qed.

(** X19: one hit whose id has no row in [meta] is enough to make
    [dense_search] raise, and [chat] with it, whatever the other hits are:
    no partial result is returned. *)
Theorem hit_without_a_row_fails_the_whole_request search generate meta q hits s idx :
  search (question q) (top_k q) = Ok hits ->
  In (s, idx) hits ->
  fetch_row meta idx = None ->
  (exists e, dense_search score search meta (question q) (top_k q) = Raise e) /\
  (exists e, chat score search generate meta q = Raise e).
Proof.
  intros Hs Hin Hnone.
  destruct (dense_search_from_missing meta hits s idx 0 Hin Hnone) as [e He].
  assert (Hd : dense_search score search meta (question q) (top_k q) = Raise e)
    by (unfold dense_search; rewrite Hs; exact He).
  split; [now exists e|]. exists e. unfold chat. now rewrite Hd.
Qed.

Lemma fetch_row_position (rows : list meta_row) : forall k i row,
  (forall j r, nth_error rows j = Some r -> row_id r = Z.of_nat (k + j)) ->
  nth_error rows i = Some row ->
  fetch_row rows (Z.of_nat (k + i)) = Some row.
Proof.
  unfold fetch_row.
  induction rows as [|r0 rows IH]; intros k i row Hid Hrow; [destruct i; discriminate|].
  cbn [find]. pose proof (Hid 0 r0 eq_refl) as H0. rewrite Nat.add_0_r in H0.
  destruct i as [|i]; cbn [nth_error] in Hrow.
  - inversion Hrow; subst r0. rewrite Nat.add_0_r, H0, Z.eqb_refl. reflexivity.
  - destruct (Z.eqb_spec (row_id r0) (Z.of_nat (k + S i))) as [Heq|_]; [lia|].
    replace (k + S i) with (S k + i) by lia. apply IH; [|exact Hrow].
    intros j r Hj. rewrite (Hid (S j) r Hj). f_equal. lia.
Qed.

Lemma dense_search_from_indexed cs entries rows hits :
  (forall j, loads (dumps j) = Ok j) ->
  embed_index cs = Ok (entries, rows) ->
  (forall s idx, In (s, idx) hits -> (0 <= idx < Z.of_nat (List.length cs))%Z) ->
  forall r, exists out, dense_search_from score rows r hits = Ok out.
Proof.
  intros Hcodec Hembed. induction hits as [|[s idx] hits IH]; intros Hrange r.
  - now exists [].
  - destruct (Hrange s idx (or_introl eq_refl)) as [H0 Hlt].
    destruct (nth_error cs (Z.to_nat idx)) as [c|] eqn:Hc;
      [|apply nth_error_None in Hc; lia].
    destruct (embed_index_row cs entries rows (Z.to_nat idx) c Hembed Hc)
      as (t & row & loc & _ & _ & Hrow & _ & _ & _ & Hloc & Hents & _).
    assert (Hfetch : fetch_row rows idx = Some row).
    { rewrite <- (Z2Nat.id idx) by lia.
      apply (fetch_row_position rows 0 (Z.to_nat idx) row); [|exact Hrow].
      intros j r' Hj. cbn [Nat.add].
      destruct (embed_index_lengths cs entries rows Hembed) as [_ Hlr].
      assert (j < List.length cs) by (rewrite <- Hlr; apply nth_error_Some; congruence).
      destruct (nth_error cs j) as [cj|] eqn:Hcj; [|apply nth_error_None in Hcj; lia].
      destruct (embed_index_row cs entries rows j cj Hembed Hcj)
        as (_ & row' & _ & _ & _ & Hrow' & Hid & _).
      rewrite Hj in Hrow'. inversion Hrow'; subst. exact Hid. }
    destruct (IH (fun s' idx' Hin => Hrange s' idx' (or_intror Hin)) (S r)) as [rest Hrest].
    cbn [dense_search_from]. rewrite Hfetch, Hloc, Hents, !Hcodec. cbn [bind].
    rewrite Hrest. cbn [bind]. eauto.
Qed.

(** X20: storing and retrieving is a round trip. When [json.loads] undoes
    [json.dumps], and the index returns ids of chunks that embed_index.py
    stored, [dense_search] succeeds and the passage for a hit with id [idx]
    carries the text, the [loc] and the [ents] ([[]] when it has none) of the
    chunk at position [idx] of the file, and its path. *)
Theorem retrieved_passage_is_the_indexed_chunk cs entries rows search q k hits :
  (forall j, loads (dumps j) = Ok j) ->
  embed_index cs = Ok (entries, rows) ->
  search q k = Ok hits ->
  (forall s idx, In (s, idx) hits -> (0 <= idx < Z.of_nat (List.length cs))%Z) ->
  exists out,
    dense_search score search rows q k = Ok out /\
    List.length out = List.length hits /\
    forall i p, nth_error out i = Some p ->
      exists s idx c,
        nth_error hits i = Some (s, idx) /\
        nth_error cs (Z.to_nat idx) = Some c /\
        p_rank p = i /\
        p_score p = s /\
        dict_get "text" c = Some (JStr (p_text p)) /\
        dict_get "loc" c = Some (p_loc p) /\
        p_ents p = get_default "ents" (JList []) c /\
        exists v, dict_get "doc_path" c = Some v /\ sql_text v = Ok (p_doc_path p).
Proof.
  intros Hcodec Hembed Hsearch Hrange.
  destruct (dense_search_from_indexed cs entries rows hits Hcodec Hembed Hrange 0)
    as [out Hout].
  exists out. unfold dense_search. rewrite Hsearch. cbn [bind].
  split; [exact Hout|].
  destruct (dense_search_from_nth rows hits 0 out Hout) as [Hlen Hnth].
  split; [exact Hlen|]. intros i p Hp.
  destruct (Hnth i p Hp)
    as (Hrank & s & idx & row & Hhit & Hfetch & Hs & Hpath & Htext & Hloc & Hents).
  destruct (Hrange s idx (nth_error_In _ _ Hhit)) as [H0 Hlt].
  destruct (nth_error cs (Z.to_nat idx)) as [c|] eqn:Hc;
    [|apply nth_error_None in Hc; lia].
  destruct (embed_index_row cs entries rows (Z.to_nat idx) c Hembed Hc)
    as (t & row' & loc & Ht & _ & Hrow' & Hid & Hrt & Hcl & Hrl & Hre & (v & Hv & Hv') & _).
  assert (Hsame : fetch_row rows idx = Some row').
  { rewrite <- (Z2Nat.id idx) by lia.
    apply (fetch_row_position rows 0 (Z.to_nat idx) row'); [|exact Hrow'].
    intros j r' Hj. cbn [Nat.add].
    destruct (embed_index_lengths cs entries rows Hembed) as [_ Hlr].
    assert (j < List.length cs) by (rewrite <- Hlr; apply nth_error_Some; congruence).
    destruct (nth_error cs j) as [cj|] eqn:Hcj; [|apply nth_error_None in Hcj; lia].
    destruct (embed_index_row cs entries rows j cj Hembed Hcj)
      as (_ & row'' & _ & _ & _ & Hrow'' & Hid'' & _).
    rewrite Hj in Hrow''. inversion Hrow''; subst. exact Hid''. }
  rewrite Hfetch in Hsame. inversion Hsame; subst row'.
  rewrite Hrl, Hcodec in Hloc. inversion Hloc; subst loc.
  rewrite Hre, Hcodec in Hents. inversion Hents as [Hpe].
  exists s, idx, c. split; [exact Hhit|]. split; [exact Hc|].
  split; [exact Hrank|]. split; [exact Hs|].
  split; [rewrite Htext, Hrt; exact Ht|]. split; [exact Hcl|].
  split; [now symmetry|]. exists v. split; [exact Hv|]. now rewrite Hpath.
Qed.

Lemma filter_entities_ok ents passages : forall kept,
  filter_entities score ents passages = Ok kept ->
  kept = filter (passage_has_label ents) passages.
Proof.
  induction passages as [|p passages IH]; intros kept H; cbn [filter_entities] in H.
  - now inversion H.
  - cbn [filter].
    destruct (labels_of (p_ents p)) as [labels|e] eqn:Hl; [|discriminate]. cbn [bind] in H.
    destruct (filter_entities score ents passages) as [rest|e] eqn:Hr; [|discriminate].
    cbn [bind] in H. inversion H; subst kept.
    assert (Hp : passage_has_label ents p = has_label_in ents labels)
      by (unfold passage_has_label; now rewrite Hl).
    now rewrite Hp, (IH rest eq_refl).
Qed.

(** X21: when [chat] returns, it echoes the question, and its passages are
    those found by [dense_search], in the same order and with their ranks
    unchanged; with a non-empty [entities] list only the passages that have
    an entity with one of these labels are kept, and with no list or an empty
    one all of them are. *)
Theorem chat_keeps_the_passages_with_a_requested_label search generate meta q resp :
  chat score search generate meta q = Ok resp ->
  exists found,
    dense_search score search meta (question q) (top_k q) = Ok found /\
    r_question resp = question q /\
    r_passages resp =
      match entities q with
      | Some (e :: es) => filter (passage_has_label (e :: es)) found
      | _ => found
      end.
Proof.
  unfold chat.
  destruct (dense_search score search meta (question q) (top_k q)) as [found|e];
    [|discriminate]. cbn [bind].
  intros H. exists found. split; [reflexivity|].
  assert (Hsel : forall kept,
             match entities q with
             | Some (e :: es) => filter_entities score (e :: es) found
             | _ => Ok found
             end = Ok kept ->
             kept = match entities q with
                    | Some (e :: es) => filter (passage_has_label (e :: es)) found
                    | _ => found
                    end).
  { intros kept Hk. destruct (entities q) as [[|e es]|].
    - now inversion Hk.
    - now apply filter_entities_ok.
    - now inversion Hk. }
  destruct (match entities q with
            | Some (e :: es) => filter_entities score (e :: es) found
            | _ => Ok found
            end) as [kept|e] eqn:Hk; [|discriminate].
  cbn [bind] in H. rewrite <- (Hsel kept eq_refl).
  destruct kept as [|p kept].
  - inversion H; subst resp. split; reflexivity.
  - destruct (generate (prompt_of score (question q) (p :: kept))) as [answer|e];
      [|discriminate].
    cbn [bind] in H. inversion H; subst resp. split; reflexivity.
Qed.

(** X22: when the search finds nothing, or the entity filter keeps
    nothing, [chat] answers with its fixed sentence and an empty passage
    list without calling the language model: the response is the same for
    every model, also for one that raises. *)
Theorem chat_does_not_ask_the_model_when_no_passage_is_left
        search generate meta q found :
  dense_search score search meta (question q) (top_k q) = Ok found ->
  match entities q with
  | Some (e :: es) => filter_entities score (e :: es) found
  | _ => Ok found
  end = Ok [] ->
  chat score search generate meta q =
  Ok {| r_question := question q; r_answer := no_match_answer; r_passages := [] |}.
Proof.
  intros Hfound Hsel. unfold chat. rewrite Hfound. cbn [bind].
  rewrite Hsel. reflexivity.
Qed.

End ApiProperties.

(** ** From a chunk to the page the viewer renders *)

Section ViewerProperties.

Context {caps : Capabilities} {seg : Segmenter}.

(** X23: the page numbers of the extractor and of the viewer agree. For
    every chunk of a document, the viewer reads from its [loc] a page number
    from which [render_page_png] computes the 0-based index of the very page
    the chunk was cut from, an index below the page count. *)
Theorem viewer_renders_the_page_the_chunk_came_from d g doc cs sp c :
  open_pdf d = Ok doc ->
  process_pdf d g = Ok (cs, sp) ->
  In c cs ->
  exists loc q,
    getitem "loc" c = Ok loc /\
    bind (ui_page_no loc) render_page_index = Ok (Z.of_nat q) /\
    q < page_count doc /\
    is_extracted d doc q = true /\
    In c (page_contrib d doc q (g (extracted_before d doc q))).
Proof.
  intros Hopen Hrun Hin.
  destruct (process_pdf_chunk_origin d g doc cs sp c Hopen Hrun Hin)
    as (q & Hq & Hex & Hp & _ & Hc).
  unfold chunk_page, chunk_loc, spread in Hp.
  destruct (dict_get "loc" c) as [[| | |loc]|] eqn:Hloc; try discriminate.
  exists (JDict loc), q. split; [unfold getitem; now rewrite Hloc|].
  split; [|auto].
  cbn [ui_page_no bind]. unfold get_default. rewrite Hp. cbn [render_page_index].
  f_equal. lia.
Qed.

End ViewerProperties.

(** ** Worked examples for the downstream scripts *)


(** Enriching the enriched demo file gives it back. *)
Lemma demo_file_enriched_twice :
  enrich_chunks (ner := stub_ner) demo_chunks = Ok demo_enriched /\
  enrich_chunks (ner := stub_ner) demo_enriched = Ok demo_enriched.
Proof.
  assert (H : enrich_chunks (ner := stub_ner) demo_chunks = Ok demo_enriched)
    by reflexivity.
  split; [exact H|].
  exact (enrich_twice_is_enrich_once (ner := stub_ner) demo_chunks demo_enriched H).
Defined.



(** Searching the demo table: two hits, two passages, ranks 0 and 1. *)
Lemma demo_search_result :
  exists out,
    dense_search (codec := plain_codec) nat demo_search demo_meta "q" 2 = Ok out /\
    List.length out = 2 /\
    map p_rank out = [0; 1] /\
    exists hits, demo_search "q" 2%Z = Ok hits /\ List.length out = List.length hits.
Proof.
  eexists. split; [reflexivity|]. split; [reflexivity|]. split; [reflexivity|].
  destruct (dense_search_returns_one_passage_per_hit (codec := plain_codec) nat
              demo_search demo_meta "q" 2%Z _ eq_refl) as (hits & Hs & Hlen & _).
  exists hits. split; [exact Hs|exact Hlen].
Defined.

(** The padded index: the id [-1] has no row, and the request fails. *)
Lemma padded_search_fails :
  padded_search (question (demo_query None)) (top_k (demo_query None))
    = Ok [(90, 2%Z); (0, (-1)%Z)] /\
  In (0, (-1)%Z) [(90, 2%Z); (0, (-1)%Z)] /\
  fetch_row demo_meta (-1) = None /\
  exists e, chat (codec := plain_codec) nat padded_search (fun _ => Ok "An answer.")
                 demo_meta (demo_query None) = Raise e.
Proof.
  assert (Hin : In (0, (-1)%Z) [(90, 2%Z); (0, (-1)%Z)]) by (right; left; reflexivity).
  split; [reflexivity|]. split; [exact Hin|]. split; [reflexivity|].
  apply (hit_without_a_row_fails_the_whole_request (codec := plain_codec) nat
           padded_search (fun _ => Ok "An answer.") demo_meta (demo_query None)
           [(90, 2%Z); (0, (-1)%Z)] 0 (-1)%Z eq_refl Hin eq_refl).
Defined.

(** From the demo file to a passage and back to its chunk. *)
Lemma demo_round_trip :
  (forall j, loads (JsonCodec := plain_codec) (dumps j) = Ok j) /\
  (exists entries,
     embed_index (codec := plain_codec) (enc := stub_encoder) demo_enriched
       = Ok (entries, demo_meta)) /\
  demo_search "q" 2%Z = Ok [(90, 2%Z); (70, 0%Z)] /\
  exists out,
    dense_search (codec := plain_codec) nat demo_search demo_meta "q" 2 = Ok out /\
    List.length out = 2.
Proof.
  assert (Hcodec : forall j, loads (JsonCodec := plain_codec) (dumps j) = Ok j)
    by (intros j; reflexivity).
  split; [exact Hcodec|]. split; [eexists; reflexivity|]. split; [reflexivity|].
  assert (Hrange : forall (s : nat) idx,
             In (s, idx) [(90, 2%Z); (70, 0%Z)] ->
             (0 <= idx < Z.of_nat (List.length demo_enriched))%Z).
  { intros s idx [H|[H|[]]]; inversion H; subst; cbn; lia. }
  destruct (retrieved_passage_is_the_indexed_chunk
              (codec := plain_codec) (enc := stub_encoder) nat
              demo_enriched _ demo_meta demo_search "q" 2%Z [(90, 2%Z); (70, 0%Z)]
              Hcodec eq_refl eq_refl Hrange) as (out & Hout & Hlen & _).
  exists out. split; [exact Hout|exact Hlen].
Defined.

(** Asking for ORG entities keeps both passages of the demo search. *)
Lemma demo_chat_with_entity_filter :
  exists resp found,
    chat (codec := plain_codec) nat demo_search (fun _ => Ok "An answer.")
         demo_meta (demo_query (Some ["ORG"])) = Ok resp /\
    dense_search (codec := plain_codec) nat demo_search demo_meta
         "What is in the report?" 2 = Ok found /\
    r_passages resp = filter (passage_has_label ["ORG"]) found /\
    List.length (r_passages resp) = 2.
Proof.
  eexists.
  destruct (chat_keeps_the_passages_with_a_requested_label (codec := plain_codec) nat
              demo_search (fun _ => Ok "An answer.") demo_meta
              (demo_query (Some ["ORG"])) _ eq_refl) as (found & Hf & _ & Hp).
  exists found. split; [reflexivity|]. split; [exact Hf|]. split; [exact Hp|reflexivity].
Defined.

(** Asking for PERSON entities keeps nothing, and the model, which is down,
    is not called. *)
Lemma demo_chat_without_match :
  exists found,
    dense_search (codec := plain_codec) nat demo_search demo_meta
         (question (demo_query (Some ["PERSON"]))) (top_k (demo_query (Some ["PERSON"])))
      = Ok found /\
    filter_entities nat ["PERSON"] found = Ok [] /\
    chat (codec := plain_codec) nat demo_search (fun _ => Raise "model is down")
         demo_meta (demo_query (Some ["PERSON"]))
    = Ok {| r_question := "What is in the report?"; r_answer := no_match_answer;
            r_passages := [] |}.
Proof.
  eexists. split; [reflexivity|]. split; [reflexivity|].
  exact (chat_does_not_ask_the_model_when_no_passage_is_left (codec := plain_codec) nat
           demo_search (fun _ => Raise "model is down") demo_meta
           (demo_query (Some ["PERSON"])) _ eq_refl eq_refl).
Defined.

(** The second table chunk of the mixed document lies on page 2, which the
    viewer loads as page index 1. *)
Lemma mixed_document_viewer_page :
  let doc := doc_of_pages [text_page "   "; text_page "Totals."; Raise "page 3 is damaged"] in
  let st := process_pages (caps := caps_tables) (seg := stub_segmenter)
              pdf_mixed doc uuid_tally in
  let c := nth 3 (chunks st) [] in
  open_pdf (caps := caps_tables) pdf_mixed = Ok doc /\
  process_pdf (caps := caps_tables) (seg := stub_segmenter) pdf_mixed uuid_tally
    = Ok (chunks st, skipped_pages st) /\
  In c (chunks st) /\
  bind (bind (getitem "loc" c) ui_page_no) render_page_index = Ok 1%Z /\
  exists loc q,
    getitem "loc" c = Ok loc /\
    bind (ui_page_no loc) render_page_index = Ok (Z.of_nat q) /\
    q < page_count doc.
Proof.
  intros doc st c.
  assert (Hin : In c (chunks st)) by (do 3 right; left; reflexivity).
  split; [reflexivity|]. split; [reflexivity|]. split; [exact Hin|].
  split; [reflexivity|].
  destruct (viewer_renders_the_page_the_chunk_came_from
              (caps := caps_tables) (seg := stub_segmenter)
              pdf_mixed uuid_tally doc (chunks st) (skipped_pages st) c
              eq_refl eq_refl Hin) as (loc & q & H1 & H2 & H3 & _).
  exists loc, q. auto.
Defined.

(** ** Facts about recognised text and window texts *)

Lemma truthy_app (a b : string) : truthy a = true -> truthy (a ++ b) = true.
Proof. destruct a; [discriminate|reflexivity]. Qed.

Lemma join_truthy sep (l : list string) x :
  Forall (fun s => truthy s = true) (x :: l) -> truthy (join sep (x :: l)) = true.
Proof.
  intros H. inversion H as [|? ? Hx _]; subst. cbn [join].
  destruct l; [exact Hx|]. now apply truthy_app.
Qed.

Section TextProperties.

Context {caps : Capabilities} {seg : Segmenter}.

Lemma ocr_overlay_lines imgs : forall t t',
  ocr_overlay imgs t = Ok t' -> t' = append_lines t (recognised imgs).
Proof.
  unfold append_lines.
  induction imgs as [|img imgs IH]; intros t t' H; cbn [ocr_overlay] in H.
  - now inversion H.
  - cbn [recognised flat_map]. fold (recognised imgs).
    destruct (image_bytes img) as [raw|e]; [|discriminate]. cbn [bind] in H.
    destruct (truthy raw).
    + destruct (Image_open img) as [u|e]; [|discriminate]. cbn [bind] in H.
      destruct (image_to_string img) as [s|e]; [|discriminate]. cbn [bind] in H.
      destruct (im_save img) as [u'|e]; [|discriminate]. cbn [bind] in H.
      cbn [app fold_left]. now apply IH.
    + destruct (image_to_string img); cbn [app]; now apply IH.
Qed.

Lemma plumber_ocr_lines imgs : forall t t',
  plumber_ocr imgs t = Ok t' -> t' = append_lines t (plumber_recognised imgs).
Proof.
  unfold append_lines.
  induction imgs as [|img imgs IH]; intros t t' H; cbn [plumber_ocr] in H.
  - now inversion H.
  - cbn [plumber_recognised flat_map]. fold (plumber_recognised imgs).
    destruct (crop_to_image img) as [u|e]; [|discriminate]. cbn [bind] in H.
    destruct (plumb_save img) as [u'|e]; [|discriminate]. cbn [bind] in H.
    destruct (plumb_to_string img) as [s|e]; [|discriminate]. cbn [bind] in H.
    cbn [app fold_left]. now apply IH.
Qed.

(** X24: when the primary attempt succeeds with recognition on, the page
    text is the native text followed, image by image in the order of
    [get_images], by a newline and the recognised text of each image that
    has non-empty bytes; images without bytes add nothing. On the fallback
    path every image adds its recognised text in the same way. *)
Theorem recognised_text_is_appended_in_image_order
        d doc page_no page t imgs text tables :
  HAS_OCR = true ->
  load_page doc page_no = Ok page ->
  get_text page = Ok t ->
  get_images page = Ok imgs ->
  primary_attempt d doc page_no = Ok (text, tables) ->
  text = append_lines t (recognised imgs) /\
  extract_page d doc page_no = Extracted (append_lines t (recognised imgs)) tables /\
  (forall pimgs t0 t1,
     plumber_ocr pimgs t0 = Ok t1 -> t1 = append_lines t0 (plumber_recognised pimgs)).
Proof.
  intros Hocr Hload Htext Himgs Hprim.
  assert (Hprim' := Hprim). unfold primary_attempt in Hprim'.
  rewrite Hload in Hprim'. cbn [bind] in Hprim'. rewrite Htext in Hprim'.
  cbn [bind] in Hprim'. rewrite Hocr, Himgs in Hprim'. cbn [bind] in Hprim'.
  destruct (ocr_overlay imgs t) as [t'|e] eqn:Ho; [|discriminate].
  cbn [bind] in Hprim'. inversion Hprim'; subst text tables.
  apply ocr_overlay_lines in Ho. subst t'.
  split; [reflexivity|]. split.
  - unfold extract_page. now rewrite Hprim.
  - intros pimgs t0 t1. apply plumber_ocr_lines.
Qed.

Lemma sentences_truthy text : Forall (fun s => truthy s = true) (sentences text).
Proof.
  apply Forall_forall. intros s Hs. unfold sentences in Hs.
  apply filter_In in Hs. now destruct Hs.
Qed.

Lemma Forall_firstn_skipn {A} (P : A -> Prop) (l : list A) n m :
  Forall P l -> Forall P (firstn n (skipn m l)).
Proof.
  intros H. apply Forall_forall. intros x Hx.
  rewrite Forall_forall in H. apply H.
  assert (Hfirst : forall k (l' : list A), In x (firstn k l') -> In x l').
  { induction k as [|k IHk]; intros l' Hk; [destruct Hk|].
    destruct l' as [|y l']; [destruct Hk|].
    destruct Hk as [->|Hk]; [now left|right; now apply IHk]. }
  apply Hfirst in Hx. revert Hx. clear. revert l.
  induction m as [|m IH]; intros l Hx; [exact Hx|].
  destruct l as [|y l]; [destruct Hx|]. right. now apply IH.
Qed.

(** X25: a chunk whose [loc] has a sentence range is a text chunk and
    never has an empty text: only the single raw chunk of a page without
    sentences, and table chunks, can have one. *)
Theorem chunks_with_a_sentence_range_have_text d g cs sp c :
  process_pdf d g = Ok (cs, sp) ->
  In c cs ->
  dict_get "start_sent" (chunk_loc c) <> None ->
  is_text c = true /\
  exists s, chunk_text c = Some (JStr s) /\ s <> "".
Proof.
  intros Hrun Hin Hrange.
  destruct (process_pdf_opened d g cs sp Hrun) as [doc Hopen].
  destruct (process_pdf_chunk_origin d g doc cs sp c Hopen Hrun Hin)
    as (q & _ & _ & _ & _ & Hc).
  unfold page_contrib in Hc.
  destruct (extract_page d doc q) as [text tables|r]; [|destruct Hc].
  unfold page_chunks in Hc. apply in_app_or in Hc. destruct Hc as [Hc|Hc].
  - unfold text_chunks in Hc. pose proof (sentences_truthy text) as Htr.
    destruct (sentences text) as [|s0 ss] eqn:Es.
    + destruct Hc as [<-|[]]. exfalso. apply Hrange. reflexivity.
    + apply in_map_iff in Hc. destruct Hc as ([i win] & <- & Hw).
      split; [reflexivity|]. cbn [fst snd]. rewrite window_chunk_text.
      exists (join " " win). split; [reflexivity|].
      unfold page_windows in Hw. rewrite range_step_starts in Hw.
      apply in_map_iff in Hw. destruct Hw as (j & Heq & Hj). inversion Heq; subst i win.
      apply window_starts_In in Hj. destruct Hj as [Hj _].
      assert (Hall : Forall (fun s => truthy s = true) (slice (s0 :: ss) j (j + WINDOW)))
        by (unfold slice; now apply Forall_firstn_skipn).
      pose proof (slice_length (s0 :: ss) j) as Hlen.
      destruct (slice (s0 :: ss) j (j + WINDOW)) as [|x l] eqn:Ew.
      * exfalso. revert Hlen. change WINDOW with 5. cbn [List.length] in *. lia.
      * intros Hempty. pose proof (join_truthy " " l x Hall) as Ht.
        rewrite Hempty in Ht. discriminate.
  - unfold table_chunks in Hc. apply in_map_iff in Hc.
    destruct Hc as ([ti tbl] & <- & _). exfalso. apply Hrange. reflexivity.
Qed.

End TextProperties.

(** The scanned page: its text is the native text and two recognised
    blocks. *)
Lemma scanned_page_text :
  let page := {| get_text := Ok "Native.";
                 get_images := Ok [image_reads "PNG" "First."; image_reads "" "Unseen.";
                                   image_reads "PNG" "Third."] |} in
  let doc := doc_of_pages [Ok page] in
  HAS_OCR (Capabilities := caps_ocr) = true /\
  load_page doc 0 = Ok page /\
  primary_attempt (caps := caps_ocr) pdf_scanned doc 0
    = Ok (append_lines "Native." ["First."; "Third."], []) /\
  extract_page (caps := caps_ocr) pdf_scanned doc 0
    = Extracted (append_lines "Native." ["First."; "Third."]) [].
Proof.
  intros page doc. split; [reflexivity|]. split; [reflexivity|]. split; [reflexivity|].
  apply (recognised_text_is_appended_in_image_order (caps := caps_ocr)
           pdf_scanned doc 0 page "Native."
           [image_reads "PNG" "First."; image_reads "" "Unseen."; image_reads "PNG" "Third."]
           (append_lines "Native." ["First."; "Third."]) []
           eq_refl eq_refl eq_refl eq_refl eq_refl).
Defined.

(** The first chunk of the two-page document has a sentence range and a
    text. *)
Lemma two_pages_first_chunk_text :
  let doc := doc_of_pages [text_page seven_sentences; Raise "page 2 is damaged"] in
  let st := process_pages (caps := caps_none) (seg := stub_segmenter)
              pdf_two_pages doc uuid_zero in
  let c := nth 0 (chunks st) [] in
  process_pdf (caps := caps_none) (seg := stub_segmenter) pdf_two_pages uuid_zero
    = Ok (chunks st, skipped_pages st) /\
  In c (chunks st) /\
  dict_get "start_sent" (chunk_loc c) <> None /\
  exists s, chunk_text c = Some (JStr s) /\ s <> "".
Proof.
  intros doc st c.
  assert (Hin : In c (chunks st)) by (left; reflexivity).
  assert (Hr : dict_get "start_sent" (chunk_loc c) <> None) by discriminate.
  split; [reflexivity|]. split; [exact Hin|]. split; [exact Hr|].
  apply (chunks_with_a_sentence_range_have_text (caps := caps_none) (seg := stub_segmenter)
           pdf_two_pages uuid_zero (chunks st) (skipped_pages st) c eq_refl Hin Hr).
Defined.

(** The demo run through the three scripts. *)
Lemma demo_run_through_the_scripts :
  (forall texts, texts <> [] ->
     exists dim, encode_dim (Encoder := stub_encoder) texts = Ok dim) /\
  demo_chunks <> [] /\
  (exists entries rows,
     embed_index (codec := plain_codec) (enc := stub_encoder) demo_chunks
       = Ok (entries, rows)) /\
  (exists out',
     enrich_chunks (ner := stub_ner) demo_chunks = Ok out' /\
     List.length out' = List.length demo_chunks).
Proof.
  assert (Henc : forall texts, texts <> [] ->
            exists dim, encode_dim (Encoder := stub_encoder) texts = Ok dim).
  { intros [|t texts] Hne; [congruence|]. now exists 384. }
  assert (Hne : demo_chunks <> []) by discriminate.
  split; [exact Henc|]. split; [exact Hne|].
  destruct (extractor_output_can_be_enriched_and_indexed
              (caps := caps_all) (seg := stub_segmenter) (ner := stub_ner)
              (codec := plain_codec) (enc := stub_encoder)
              (fun _ => uuid_zero) [pdf_one_table] Henc Hne)
    as ((entries & rows & H1 & _) & (out' & H2 & H3 & _)).
  split; [now exists entries, rows|]. exists out'. split; [exact H2|exact H3].
Defined.

(** ** The keys of a chunk *)

Section SchemaProperties.

Context {caps : Capabilities} {seg : Segmenter}.

(** X26: every chunk has the same keys in the same order: [chunk_id],
    [source], [doc_path], [loc], [tables], [elem_type] and [text], with
    [table_no] between [elem_type] and [text] in a table chunk and only
    there; [source] is always ["pdf"] and [doc_path] the path the task was
    given. No chunk has a key twice. *)
Theorem every_chunk_has_the_same_keys d g cs sp c :
  process_pdf d g = Ok (cs, sp) ->
  In c cs ->
  dict_get "source" c = Some (JStr "pdf") /\
  dict_get "doc_path" c = Some (JStr (path_str d)) /\
  NoDup (map fst c) /\
  ((is_text c = true /\
    map fst c = ["chunk_id"; "source"; "doc_path"; "loc"; "tables"; "elem_type"; "text"])
   \/
   (is_table c = true /\
    map fst c = ["chunk_id"; "source"; "doc_path"; "loc"; "tables"; "elem_type";
                 "table_no"; "text"])).
Proof.
  intros Hrun Hin.
  destruct (process_pdf_opened d g cs sp Hrun) as [doc Hopen].
  destruct (process_pdf_chunk_origin d g doc cs sp c Hopen Hrun Hin)
    as (q & _ & _ & _ & _ & Hc).
  assert (Hnd7 : NoDup ["chunk_id"; "source"; "doc_path"; "loc"; "tables";
                        "elem_type"; "text"]).
  { repeat constructor; cbn; intros H;
      repeat (destruct H as [H|H]; [discriminate H|]); exact H. }
  assert (Hnd8 : NoDup ["chunk_id"; "source"; "doc_path"; "loc"; "tables";
                        "elem_type"; "table_no"; "text"]).
  { repeat constructor; cbn; intros H;
      repeat (destruct H as [H|H]; [discriminate H|]); exact H. }
  unfold page_contrib in Hc.
  destruct (extract_page d doc q) as [text tables|r]; [|destruct Hc].
  unfold page_chunks in Hc. apply in_app_or in Hc. destruct Hc as [Hc|Hc].
  - unfold text_chunks in Hc. destruct (sentences text) as [|s ss].
    + destruct Hc as [<-|[]]. split; [reflexivity|]. split; [reflexivity|].
      split; [exact Hnd7|]. left. split; reflexivity.
    + apply in_map_iff in Hc. destruct Hc as ([i win] & <- & _).
      split; [reflexivity|]. split; [reflexivity|].
      split; [exact Hnd7|]. left. split; reflexivity.
  - unfold table_chunks in Hc. apply in_map_iff in Hc.
    destruct Hc as ([ti tbl] & <- & _).
    split; [reflexivity|]. split; [reflexivity|].
    split; [exact Hnd8|]. right. split; reflexivity.
Qed.

End SchemaProperties.

(** The first table chunk of the mixed document has eight keys. *)
Lemma mixed_document_chunk_keys :
  let doc := doc_of_pages [text_page "   "; text_page "Totals."; Raise "page 3 is damaged"] in
  let st := process_pages (caps := caps_tables) (seg := stub_segmenter)
              pdf_mixed doc uuid_tally in
  let c := nth 2 (chunks st) [] in
  process_pdf (caps := caps_tables) (seg := stub_segmenter) pdf_mixed uuid_tally
    = Ok (chunks st, skipped_pages st) /\
  In c (chunks st) /\
  List.length c = 8 /\
  dict_get "source" c = Some (JStr "pdf") /\
  dict_get "doc_path" c = Some (JStr "raw/pdf/m.pdf").
Proof.
  intros doc st c.
  assert (Hin : In c (chunks st)) by (do 2 right; left; reflexivity).
  split; [reflexivity|]. split; [exact Hin|]. split; [reflexivity|].
  destruct (every_chunk_has_the_same_keys (caps := caps_tables) (seg := stub_segmenter)
              pdf_mixed uuid_tally (chunks st) (skipped_pages st) c eq_refl Hin)
    as (H1 & H2 & _).
  split; [exact H1|exact H2].
Defined.
